(** * Achievement verification panel, achievement card and network selector

  A shallow embedding of the three React components of the repository
  (ScreenpipeVerificationPanel, BlockchainSelector, AchievementCard).
  Component state is a record, an event handler is a function on that
  record which also returns the calls it makes on its collaborators, and
  an [await] splits a handler into the part that runs before the promise
  settles and the continuation that runs afterwards. *)

From Stdlib Require Import ZArith List String Ascii Bool Lia DecimalString Sorted.
From Stdlib Require Import DecimalFacts DecimalPos DecimalN.
From stdpp Require Import base gmap strings.
Import ListNotations.

Local Open Scope string_scope.
Local Open Scope list_scope.
Local Open Scope Z_scope.

(** ** JavaScript values shared by the components *)
Module Js.

(** A value caught by [catch (e: any)]: the handlers only read [e.code]
    and [e.message], either of which may be [undefined]. *)
Record JsError := { code : option Z; message : option string }.

(** What a promise of the wallet rejects with and [catch (err: any)] binds:
    [undefined] or [null], on which every property access throws, or a
    value whose properties can be read. *)
Inductive Thrown :=
| nullish
| object (e : JsError).

Coercion object : JsError >-> Thrown.

(** The settlement of an awaited promise of a boolean. *)
Inductive Outcome :=
| Resolved (verified : bool)
| Rejected (e : JsError).

(** Truthiness of a [string | null | undefined]: only a non-empty string
    is truthy. *)
Definition truthy (s : option string) : bool :=
  match s with
  | Some (String _ _) => true
  | _ => false
  end.

(** [s || d] for a string-or-undefined left operand. *)
Definition or_else (s : option string) (d : string) : string :=
  match s with
  | Some (String c r) => String c r
  | _ => d
  end.

(** [haystack.includes(needle)] *)
Fixpoint includes (needle haystack : string) : bool :=
  String.prefix needle haystack ||
  match haystack with
  | EmptyString => false
  | String _ rest => includes needle rest
  end.

(** The error raised by a member access on [undefined]. *)
Definition TypeError (what : string) : JsError :=
  {| code := None;
     message := Some ("Cannot read properties of undefined (reading '" +:+ what +:+ "')") |}.

(** *** Strings and numbers

    A string is a sequence of code units below 256. *)

Definition unit_of (c : ascii) : Z := Z.of_nat (nat_of_ascii c).

(** [String.prototype.toLowerCase] on code units below 256: A to Z and the
    accented capitals U+00C0 to U+00DE (U+00D7 is the multiplication sign)
    move up by 32. *)
Definition lower_unit (c : ascii) : ascii :=
  let n := unit_of c in
  if ((65 <=? n) && (n <=? 90)) || ((192 <=? n) && (n <=? 222) && negb (n =? 215))
  then ascii_of_nat (nat_of_ascii c + 32)
  else c.

Fixpoint toLowerCase (s : string) : string :=
  match s with
  | EmptyString => EmptyString
  | String c r => String (lower_unit c) (toLowerCase r)
  end.

(** White space and line terminators below 256: TAB, LF, VT, FF, CR, SP
    and NBSP. *)
Definition is_white_space (c : ascii) : bool :=
  let n := unit_of c in
  ((9 <=? n) && (n <=? 13)) || (n =? 32) || (n =? 160).

Fixpoint trim_start (s : string) : string :=
  match s with
  | EmptyString => EmptyString
  | String c r => if is_white_space c then trim_start r else s
  end.

Definition hex_digit (c : ascii) : option Z :=
  let n := unit_of c in
  if (48 <=? n) && (n <=? 57) then Some (n - 48)
  else if (97 <=? n) && (n <=? 102) then Some (n - 87)
  else if (65 <=? n) && (n <=? 70) then Some (n - 55)
  else None.

(** The value of the longest prefix of hexadecimal digits, [acc] being the
    value of the digits already read. *)
Fixpoint hex_value (s : string) (acc : Z) : Z :=
  match s with
  | EmptyString => acc
  | String c r =>
      match hex_digit c with
      | Some d => hex_value r (16 * acc + d)
      | None => acc
      end
  end.

(** The Number values [parseInt] can return: all of them are integers, a
    zero may be negative. *)
Inductive Number :=
| NaN
| Infinity (negative : bool)
| Finite (negative : bool) (magnitude : Z).

(** The double nearest to a natural number, ties to the even significand;
    from 2^1024 on the result is infinite. *)
Definition to_double (negative : bool) (m : Z) : Number :=
  if m <? 2 ^ 53 then Finite negative m
  else
    let e := Z.log2 m - 52 in
    let q := m / 2 ^ e in
    let r := m mod 2 ^ e in
    let half := 2 ^ (e - 1) in
    let q' := if (half <? r) || ((r =? half) && Z.odd q) then q + 1 else q in
    let v := q' * 2 ^ e in
    if 2 ^ 1024 <=? v then Infinity negative else Finite negative v.

Definition strip_sign (s : string) : bool * string :=
  match s with
  | String "-" r => (true, r)
  | String "+" r => (false, r)
  | _ => (false, s)
  end.

Definition strip_0x (s : string) : string :=
  match s with
  | String "0" (String "x" r) => r
  | String "0" (String "X" r) => r
  | _ => s
  end.

(** [parseInt(s, 16)] *)
Definition parseInt16 (s : string) : Number :=
  let '(negative, s1) := strip_sign (trim_start s) in
  let s2 := strip_0x s1 in
  match s2 with
  | EmptyString => NaN
  | String c _ =>
      match hex_digit c with
      | None => NaN
      | Some _ => to_double negative (hex_value s2 0)
      end
  end.

Definition decimal (z : Z) : string :=
  NilZero.string_of_uint (N.to_uint (Z.to_N z)).

(** The number of decimal digits of a positive integer. *)
Definition digits (z : Z) : Z := Z.of_nat (String.length (decimal z)).

Definition is_double (x v : Z) : bool :=
  match to_double false v with
  | Finite _ y => y =? x
  | _ => false
  end.

(** The decimal with [k] significant digits that reads back as the double
    [x] and is nearest to it, if there is one; of two equally near the one
    with the even last digit. *)
Definition nearest_with (k x : Z) : option Z :=
  let p := 10 ^ Z.max 0 (digits x - k) in
  let lo := x / p * p in
  let hi := lo + p in
  match is_double x lo, is_double x hi with
  | true, true =>
      if (x - lo <? hi - x) || ((x - lo =? hi - x) && Z.even (lo / p))
      then Some lo else Some hi
  | true, false => Some lo
  | false, true => Some hi
  | false, false => None
  end.

(** The shortest such decimal, trying [fuel] lengths from [k] up. *)
Fixpoint shortest (fuel : nat) (k x : Z) : Z :=
  match fuel with
  | O => x
  | S fuel' =>
      match nearest_with k x with
      | Some v => v
      | None => shortest fuel' (k + 1) x
      end
  end.

Fixpoint strip_zeros_rev (s : list ascii) : list ascii :=
  match s with
  | "0"%char :: r => strip_zeros_rev r
  | _ => s
  end.

Definition strip_trailing_zeros (s : string) : string :=
  string_of_list_ascii (rev (strip_zeros_rev (rev (list_ascii_of_string s)))).

(** [Number::toString] in radix 10 for a positive integral double. *)
Definition positive_to_string (x : Z) : string :=
  let v := shortest (Z.to_nat (digits x)) 1 x in
  if digits v <=? 21 then decimal v
  else
    match strip_trailing_zeros (decimal v) with
    | String d EmptyString => String d ("e+" +:+ decimal (digits v - 1))
    | String d r => String d ("." +:+ r +:+ "e+" +:+ decimal (digits v - 1))
    | EmptyString => EmptyString
    end.

(** The string a template literal makes of a Number. *)
Definition number_to_string (n : Number) : string :=
  match n with
  | NaN => "NaN"
  | Infinity false => "Infinity"
  | Infinity true => "-Infinity"
  | Finite negative m =>
      if m =? 0 then "0"
      else if negative then "-" +:+ positive_to_string m
      else positive_to_string m
  end.

End Js.

(** ** The useAchievementVerification hook *)
Module Hook.
Import Js.

(** Modelled from the spec: the components import the hook, its source
    is missing.  Its observable state is the in-flight flag, the progress
    counter and the error message. *)
Record HookState := {
  verifying : bool;
  verificationProgress : Z;
  error : option string }.

Definition initial : HookState :=
  {| verifying := false; verificationProgress := 0; error := None |}.

(** Modelled from the spec: the components import the hook, its source
    is missing.  [resetVerificationState] clears progress and
    error state and touches nothing else. *)
Definition resetVerificationState (h : HookState) : HookState :=
  {| verifying := verifying h; verificationProgress := 0; error := None |}.

(** Modelled from the spec: the components import the hook, its source
    is missing.  [verifyAchievement] resets the previous
    session, enters the single in-flight verification and starts the
    progress counter at 0. *)
Definition verifyAchievement_begin (h : HookState) : HookState :=
  {| verifying := true; verificationProgress := 0; error := None |}.

(** Modelled from the spec: the components import the hook, its source
    is missing.  While the capture service is awaited the
    progress counter (0 to 100) is advanced towards 100; the size [d] of
    one advance is not fixed by the spec, a negative [d] advances by
    nothing. *)
Definition advance (d : Z) (h : HookState) : HookState :=
  {| verifying := verifying h;
     verificationProgress := Z.min 100 (verificationProgress h + Z.max 0 d);
     error := error h |}.

(** Modelled from the spec: the components import the hook, its source
    is missing.  When the capture service settles the
    verification is no longer in flight; progress ends at 100 on success
    and keeps its value otherwise, and a thrown error leaves its message
    in the error state. *)
Definition verifyAchievement_settle (o : Outcome) (h : HookState) : HookState :=
  match o with
  | Resolved true =>
      {| verifying := false; verificationProgress := 100; error := None |}
  | Resolved false =>
      {| verifying := false; verificationProgress := verificationProgress h;
         error := error h |}
  | Rejected e =>
      {| verifying := false; verificationProgress := verificationProgress h;
         error := message e |}
  end.

(** The values the progress counter takes over one verify call: after the
    call starts, after each advance, and when the promise settles. *)
Fixpoint advances (ds : list Z) (h : HookState) : list Z * HookState :=
  match ds with
  | [] => ([], h)
  | d :: ds' =>
      let h' := advance d h in
      let '(ps, hn) := advances ds' h' in
      (verificationProgress h' :: ps, hn)
  end.

Definition progress_trace (ds : list Z) (o : Outcome) (h : HookState) : list Z :=
  let h0 := verifyAchievement_begin h in
  let '(ps, hn) := advances ds h0 in
  verificationProgress h0 :: ps ++ [verificationProgress (verifyAchievement_settle o hn)].

End Hook.

(** ** AchievementCard.tsx *)
Module AchievementCard.
Import Js.

Inductive VerificationStatus := pending | verified | rejected.

Record Achievement := {
  id : string;
  title : string;
  description : string;
  rewardAmount : Z;
  completed : bool;
  timestamp : option string;
  verificationStatus : VerificationStatus }.

Definition is_pending (a : Achievement) : bool :=
  match verificationStatus a with pending => true | _ => false end.

(** The calls the card makes on the hook and on its parent. *)
Inductive Call :=
| CallVerifyAchievement (a : Achievement) (walletAddress : option string)
| CallOnVerificationComplete (verified : bool).

Record Props := {
  achievement : Achievement;
  walletAddress : option string;
  (** whether the optional [onVerificationComplete] prop is supplied *)
  onVerificationComplete : bool }.

Record Card := {
  props : Props;
  hook : Hook.HookState;
  (** [true] while the promise of [handleVerify] is awaited *)
  awaiting : bool;
  calls : list Call }.

Definition mount (p : Props) : Card :=
  {| props := p; hook := Hook.initial; awaiting := false; calls := [] |}.

(** [handleVerify] up to its [await]. *)
Definition handleVerify_begin (s : Card) : Card :=
  {| props := props s;
     hook := Hook.verifyAchievement_begin (hook s);
     awaiting := true;
     calls := calls s ++
              [CallVerifyAchievement (achievement (props s)) (walletAddress (props s))] |}.

(** [handleVerify] after its [await]: there is no [try], so a rejection
    leaves the handler and becomes the second component of the result. *)
Definition handleVerify_settle (o : Outcome) (s : Card) : Card * option JsError :=
  let h := Hook.verifyAchievement_settle o (hook s) in
  match o with
  | Resolved v =>
      ({| props := props s; hook := h; awaiting := false;
          calls := calls s ++
                   (if onVerificationComplete (props s)
                    then [CallOnVerificationComplete v] else []) |},
       None)
  | Rejected e =>
      ({| props := props s; hook := h; awaiting := false; calls := calls s |},
       Some e)
  end.

Definition handleVerify (o : Outcome) (s : Card) : Card * option JsError :=
  handleVerify_settle o (handleVerify_begin s).

(** The button is part of the rendered card only under this condition. *)
Definition button_rendered (s : Card) : bool :=
  completed (achievement (props s)) && is_pending (achievement (props s))
  && truthy (walletAddress (props s)).

Definition button_disabled (s : Card) : bool := Hook.verifying (hook s).

(** A click reaches [handleVerify] only through a rendered, enabled
    button. *)
Definition click (s : Card) : Card :=
  if button_rendered s && negb (button_disabled s)
  then handleVerify_begin s
  else s.

End AchievementCard.

(** ** ScreenpipeVerificationPanel.tsx *)
Module ScreenpipeVerificationPanel.
Import Js.
Export AchievementCard(VerificationStatus, pending, verified, rejected,
                       Achievement, id, title, description, rewardAmount,
                       completed, timestamp, verificationStatus, is_pending).

Inductive ConnectionStatus := connecting | connected | disconnected.

Record VerificationResult := {
  success : bool;
  message : string;
  achievementId : option string }.

(** The calls the panel makes on the hook, on its parent and on the
    toast and console services. *)
Inductive Call :=
| CallFetchScreenpipeData
| CallResetVerificationState
| CallVerifyAchievement (a : Achievement) (walletAddress : string)
| CallOnVerificationComplete (achievementId : string) (verified : bool)
| CallToast (title description variant : string)
| CallConsoleError (label : string).

Record Props := {
  achievements : list Achievement;
  walletAddress : option string;
  (** whether the optional [onVerificationComplete] prop is supplied *)
  onVerificationComplete : bool }.

(** What an awaited [verifySelectedAchievement] closed over when it was
    started. *)
Record Closure := {
  closed_selectedAchievement : Achievement;
  closed_walletAddress : string;
  closed_onVerificationComplete : bool }.

(** Who awaits a [fetchScreenpipeData] promise. *)
Inductive Fetch := ByInitializeScreenpipe | ByRefreshButton.

Record Panel := {
  props : Props;
  selectedAchievement : option Achievement;
  connectionStatus : ConnectionStatus;
  lastVerificationResult : option VerificationResult;
  hook : Hook.HookState;
  (** promises of [verifyAchievement] that have not settled, oldest first *)
  verifications : list Closure;
  (** promises of [fetchScreenpipeData] that have not settled *)
  fetches : list Fetch;
  (** every call made so far, oldest first *)
  calls : list Call }.

Definition set_props (p : Props) (s : Panel) : Panel :=
  {| props := p; selectedAchievement := selectedAchievement s;
     connectionStatus := connectionStatus s;
     lastVerificationResult := lastVerificationResult s; hook := hook s;
     verifications := verifications s; fetches := fetches s; calls := calls s |}.

Definition setSelectedAchievement (a : option Achievement) (s : Panel) : Panel :=
  {| props := props s; selectedAchievement := a;
     connectionStatus := connectionStatus s;
     lastVerificationResult := lastVerificationResult s; hook := hook s;
     verifications := verifications s; fetches := fetches s; calls := calls s |}.

Definition setConnectionStatus (c : ConnectionStatus) (s : Panel) : Panel :=
  {| props := props s; selectedAchievement := selectedAchievement s;
     connectionStatus := c;
     lastVerificationResult := lastVerificationResult s; hook := hook s;
     verifications := verifications s; fetches := fetches s; calls := calls s |}.

Definition setLastVerificationResult (r : option VerificationResult) (s : Panel) : Panel :=
  {| props := props s; selectedAchievement := selectedAchievement s;
     connectionStatus := connectionStatus s;
     lastVerificationResult := r; hook := hook s;
     verifications := verifications s; fetches := fetches s; calls := calls s |}.

Definition set_hook (h : Hook.HookState) (s : Panel) : Panel :=
  {| props := props s; selectedAchievement := selectedAchievement s;
     connectionStatus := connectionStatus s;
     lastVerificationResult := lastVerificationResult s; hook := h;
     verifications := verifications s; fetches := fetches s; calls := calls s |}.

Definition set_verifications (v : list Closure) (s : Panel) : Panel :=
  {| props := props s; selectedAchievement := selectedAchievement s;
     connectionStatus := connectionStatus s;
     lastVerificationResult := lastVerificationResult s; hook := hook s;
     verifications := v; fetches := fetches s; calls := calls s |}.

Definition set_fetches (f : list Fetch) (s : Panel) : Panel :=
  {| props := props s; selectedAchievement := selectedAchievement s;
     connectionStatus := connectionStatus s;
     lastVerificationResult := lastVerificationResult s; hook := hook s;
     verifications := verifications s; fetches := f; calls := calls s |}.

Definition call (c : list Call) (s : Panel) : Panel :=
  {| props := props s; selectedAchievement := selectedAchievement s;
     connectionStatus := connectionStatus s;
     lastVerificationResult := lastVerificationResult s; hook := hook s;
     verifications := verifications s; fetches := fetches s;
     calls := calls s ++ c |}.

(** *** Connection *)

(** [initializeScreenpipe] up to its [await]: it starts the fetch and
    leaves the connection status as it is. *)
Definition initializeScreenpipe_begin (s : Panel) : Panel :=
  set_fetches (fetches s ++ [ByInitializeScreenpipe]) (call [CallFetchScreenpipeData] s).

(** [initializeScreenpipe] after its [await]; [ok] tells whether the
    fetch resolved. *)
Definition initializeScreenpipe_settle (ok : bool) (s : Panel) : Panel :=
  if ok then setConnectionStatus connected s
  else setConnectionStatus disconnected
         (call [CallConsoleError "Screenpipe connection error:"] s).

(** The Refresh button's [onClick] up to the promise. *)
Definition refresh_begin (s : Panel) : Panel :=
  set_fetches (fetches s ++ [ByRefreshButton])
    (call [CallFetchScreenpipeData] (setConnectionStatus connecting s)).

(** The [then] and [catch] callbacks of the Refresh button. *)
Definition refresh_settle (ok : bool) (s : Panel) : Panel :=
  if ok then setConnectionStatus connected s
  else setConnectionStatus disconnected s.

(** The state of the first render: the initial values of the [useState]
    calls. *)
Definition initial (p : Props) : Panel :=
  {| props := p; selectedAchievement := None; connectionStatus := connecting;
     lastVerificationResult := None; hook := Hook.initial;
     verifications := []; fetches := []; calls := [] |}.

(** The state after the first render and the first run of the effect. *)
Definition mount (p : Props) : Panel := initializeScreenpipe_begin (initial p).

(** *** Verification *)

Definition pendingAchievements (p : Props) : list Achievement :=
  List.filter (fun a => completed a && is_pending a) (achievements p).

Definition verifiedAchievements (p : Props) : list Achievement :=
  List.filter (fun a => match verificationStatus a with verified => true | _ => false end)
              (achievements p).

(** [verifySelectedAchievement] up to its [await].  The guard returns
    without any effect; otherwise the call is started and what the
    continuation closed over is returned. *)
Definition verifySelectedAchievement_begin (s : Panel) : option Closure * Panel :=
  match selectedAchievement s, walletAddress (props s) with
  | Some a, Some (String c w) =>
      (Some {| closed_selectedAchievement := a;
               closed_walletAddress := String c w;
               closed_onVerificationComplete := onVerificationComplete (props s) |},
       set_hook (Hook.verifyAchievement_begin (Hook.resetVerificationState (hook s)))
         (call [CallResetVerificationState; CallVerifyAchievement a (String c w)]
            (setLastVerificationResult None s)))
  | _, _ => (None, s)
  end.

(** [verifySelectedAchievement] after its [await]. *)
Definition verifySelectedAchievement_settle (c : Closure) (o : Outcome) (s : Panel) : Panel :=
  let a := closed_selectedAchievement c in
  let s := set_hook (Hook.verifyAchievement_settle o (hook s)) s in
  match o with
  | Resolved true =>
      call ((if closed_onVerificationComplete c
             then [CallOnVerificationComplete (id a) true] else [])
            ++ [CallToast "Verification Successful"
                          (title a +:+ " has been verified") "default"])
        (setLastVerificationResult
           (Some {| success := true;
                    message := "Achievement verified successfully!";
                    achievementId := Some (id a) |}) s)
  | Resolved false =>
      setLastVerificationResult
        (Some {| success := false;
                 message := "Could not verify achievement. Make sure the content is visible on your screen.";
                 achievementId := Some (id a) |}) s
  | Rejected e =>
      call [CallToast "Verification Failed"
                      (or_else (Js.message e) "An error occurred during verification")
                      "destructive"]
        (setLastVerificationResult
           (Some {| success := false;
                    message := or_else (Js.message e)
                                 "Verification failed due to an unexpected error";
                    achievementId := None |})
           (call [CallConsoleError "Verification error:"] s))
  end.

(** One whole run of [verifySelectedAchievement], the awaited promise
    settling as [o]. *)
Definition verifySelectedAchievement (o : Outcome) (s : Panel) : Panel :=
  match verifySelectedAchievement_begin s with
  | (Some c, s') => verifySelectedAchievement_settle c o s'
  | (None, s') => s'
  end.

(** *** The panel as a machine driven by the user, the promises and the parent *)

Inductive Event :=
| ClickPendingCard (i : nat)
| ClickVerify
| ClickTryAgain
| ClickRefresh
| IntervalFires
| FetchSettles (i : nat) (ok : bool)
| VerifySettles (i : nat) (o : Outcome)
| HookAdvances (d : Z)
| ParentRenders (p : Props).

(** [selectedAchievement && connectionStatus === 'connected'] *)
Definition verify_button_rendered (s : Panel) : bool :=
  match selectedAchievement s, connectionStatus s with
  | Some _, connected => true
  | _, _ => false
  end.

(** [disabled={!walletAddress || verifying}] *)
Definition verify_button_disabled (s : Panel) : bool :=
  negb (truthy (walletAddress (props s))) || Hook.verifying (hook s).

(** The Try Again button of [renderVerificationResult]. *)
Definition try_again_rendered (s : Panel) : bool :=
  match lastVerificationResult s, selectedAchievement s with
  | Some r, Some _ => negb (success r)
  | _, _ => false
  end.

Definition try_again_disabled (s : Panel) : bool := Hook.verifying (hook s).

Definition refresh_disabled (s : Panel) : bool := Hook.verifying (hook s).

Definition start_verification (s : Panel) : Panel :=
  match verifySelectedAchievement_begin s with
  | (Some c, s') => set_verifications (verifications s' ++ [c]) s'
  | (None, s') => s'
  end.

(** An event on a control that is not rendered or is disabled, or the
    settlement of a promise that does not exist, changes nothing. *)
Definition step (e : Event) (s : Panel) : Panel :=
  match e with
  | ClickPendingCard i =>
      match pendingAchievements (props s) !! i with
      | Some a => setLastVerificationResult None (setSelectedAchievement (Some a) s)
      | None => s
      end
  | ClickVerify =>
      if verify_button_rendered s && negb (verify_button_disabled s)
      then start_verification s else s
  | ClickTryAgain =>
      if try_again_rendered s && negb (try_again_disabled s)
      then start_verification s else s
  | ClickRefresh =>
      if refresh_disabled s then s else refresh_begin s
  | IntervalFires => initializeScreenpipe_begin s
  | FetchSettles i ok =>
      match fetches s !! i with
      | Some ByInitializeScreenpipe =>
          initializeScreenpipe_settle ok (set_fetches (delete i (fetches s)) s)
      | Some ByRefreshButton =>
          refresh_settle ok (set_fetches (delete i (fetches s)) s)
      | None => s
      end
  | VerifySettles i o =>
      match verifications s !! i with
      | Some c =>
          verifySelectedAchievement_settle c o
            (set_verifications (delete i (verifications s)) s)
      | None => s
      end
  | HookAdvances d =>
      if Hook.verifying (hook s) then set_hook (Hook.advance d (hook s)) s else s
  | ParentRenders p => set_props p s
  end.

Definition run (es : list Event) (s : Panel) : Panel :=
  fold_left (fun s e => step e s) es s.

(** What the parent makes of the notifications it received: [registry]
    is its [onVerificationComplete]. *)
Definition notified (registry : string -> bool -> list Achievement -> list Achievement)
           (cs : list Call) (l : list Achievement) : list Achievement :=
  fold_left (fun l c => match c with
                        | CallOnVerificationComplete i v => registry i v l
                        | _ => l
                        end) cs l.

Definition is_fetch (c : Call) : bool :=
  match c with CallFetchScreenpipeData => true | _ => false end.

(** The notifications among a list of calls, in order. *)
Fixpoint callbacks (cs : list Call) : list (string * bool) :=
  match cs with
  | [] => []
  | CallOnVerificationComplete i v :: r => (i, v) :: callbacks r
  | _ :: r => callbacks r
  end.

(** The capture-service calls among a list of calls, in order. *)
Fixpoint verify_calls (cs : list Call) : list (Achievement * string) :=
  match cs with
  | [] => []
  | CallVerifyAchievement a w :: r => (a, w) :: verify_calls r
  | _ :: r => verify_calls r
  end.

(** *** The effect: first fetch, interval and cleanup *)

(** An interval of the browser: [waited] is the time since it was set or
    last fired. *)
Record Interval := { handle : nat; delay : Z; waited : Z }.

(** The intervals set by this component that have not been cleared. *)
Record Browser := { intervals : list Interval; next_handle : nat }.

Definition setInterval (d : Z) (b : Browser) : nat * Browser :=
  (next_handle b,
   {| intervals := intervals b ++ [{| handle := next_handle b; delay := d; waited := 0 |}];
      next_handle := S (next_handle b) |}).

Definition clearInterval (h : nat) (b : Browser) : Browser :=
  {| intervals := List.filter (fun t => negb (Nat.eqb (handle t) h)) (intervals b);
     next_handle := next_handle b |}.

(** A component instance: [cleanup] is the interval captured by the
    function the effect returned, [alive] is false once unmounted. *)
Record Instance := {
  panel : Panel;
  browser : Browser;
  cleanup : option nat;
  alive : bool }.

(** The body of [useEffect]. *)
Definition effect (m : Instance) : Instance :=
  let '(h, b) := setInterval 30000 (browser m) in
  {| panel := initializeScreenpipe_begin (panel m);
     browser := b; cleanup := Some h; alive := alive m |}.

(** [() => clearInterval(interval)] *)
Definition run_cleanup (m : Instance) : Instance :=
  match cleanup m with
  | Some h => {| panel := panel m; browser := clearInterval h (browser m);
                 cleanup := None; alive := alive m |}
  | None => m
  end.

Definition mount_instance (n : nat) (p : Props) : Instance :=
  effect {| panel := initial p; browser := {| intervals := []; next_handle := n |};
            cleanup := None; alive := true |}.

(** How often an interval fires when [ms] milliseconds pass, and the
    interval afterwards. *)
Definition firings (ms : Z) (t : Interval) : nat :=
  Z.to_nat ((waited t + Z.max 0 ms) / delay t).

Definition elapse_interval (ms : Z) (t : Interval) : Interval :=
  {| handle := handle t; delay := delay t;
     waited := (waited t + Z.max 0 ms) mod delay t |}.

Definition elapse (ms : Z) (m : Instance) : Instance :=
  {| panel := Nat.iter (list_sum (List.map (firings ms) (intervals (browser m))))
                       initializeScreenpipe_begin (panel m);
     browser := {| intervals := List.map (elapse_interval ms) (intervals (browser m));
                   next_handle := next_handle (browser m) |};
     cleanup := cleanup m; alive := alive m |}.

(** What a promise does that settles after the unmount: its continuation
    still runs and makes its calls, but React drops the state updates.
    Clicks and re-renders do not reach an unmounted component. *)
Definition settle_unmounted (e : Event) (s : Panel) : Panel :=
  match e with
  | FetchSettles _ _ | VerifySettles _ _ =>
      {| props := props s; selectedAchievement := selectedAchievement s;
         connectionStatus := connectionStatus s;
         lastVerificationResult := lastVerificationResult s; hook := hook s;
         verifications := verifications (step e s); fetches := fetches (step e s);
         calls := calls (step e s) |}
  | _ => s
  end.

Inductive Lifecycle :=
| Elapse (ms : Z)
| DependencyChanges
| Unmount
| Ui (e : Event).

Definition lifecycle_step (e : Lifecycle) (m : Instance) : Instance :=
  match e with
  | Elapse ms => elapse ms m
  | DependencyChanges => if alive m then effect (run_cleanup m) else m
  | Unmount =>
      if alive m
      then let m' := run_cleanup m in
           {| panel := panel m'; browser := browser m'; cleanup := cleanup m';
              alive := false |}
      else m
  | Ui e =>
      {| panel := if alive m then step e (panel m) else settle_unmounted e (panel m);
         browser := browser m; cleanup := cleanup m; alive := alive m |}
  end.

Definition lifecycle_run (es : list Lifecycle) (m : Instance) : Instance :=
  fold_left (fun m e => lifecycle_step e m) es m.

(** What a verification that settles as [o] leaves in
    [lastVerificationResult]. *)
Definition verification_result (a : Achievement) (o : Outcome) : VerificationResult :=
  match o with
  | Resolved true =>
      {| success := true; message := "Achievement verified successfully!";
         achievementId := Some (id a) |}
  | Resolved false =>
      {| success := false;
         message := "Could not verify achievement. Make sure the content is visible on your screen.";
         achievementId := Some (id a) |}
  | Rejected e =>
      {| success := false;
         message := or_else (Js.message e) "Verification failed due to an unexpected error";
         achievementId := None |}
  end.

(** How many times [fetchScreenpipeData] has been called. *)
Definition fetch_count (s : Panel) : nat := length (List.filter is_fetch (calls s)).

(** The time that passes over a list of waits; a negative wait is none. *)
Definition total_time (mss : list Z) : Z := fold_right (fun ms t => Z.max 0 ms + t) 0 mss.

(** *** Invariants of the machine *)

(** Only completed achievements are ever selected, awaited or sent to the
    capture service, the wallet sent is never empty, and the parent is only
    ever told [true], about an achievement that was sent. *)
Definition guarded (s : Panel) : Prop :=
  (forall a, selectedAchievement s = Some a -> completed a = true) /\
  Forall (fun c => In (closed_selectedAchievement c, closed_walletAddress c)
                      (verify_calls (calls s)))
         (verifications s) /\
  Forall (fun aw => completed (fst aw) = true /\ snd aw <> "") (verify_calls (calls s)) /\
  Forall (fun iv => snd iv = true /\
                    exists a w, In (a, w) (verify_calls (calls s)) /\ id a = fst iv)
         (callbacks (calls s)).

(** The hook says it is verifying exactly while one promise is awaited,
    and there is never more than one. *)
Definition single_flight (s : Panel) : Prop :=
  match verifications s with
  | [] => Hook.verifying (hook s) = false
  | [_] => Hook.verifying (hook s) = true
  | _ => False
  end.

(** Every verify call in flight is the one made last. *)
Definition in_flight_is_latest (s : Panel) : Prop :=
  Forall (fun c => last (verify_calls (calls s))
                   = Some (closed_selectedAchievement c, closed_walletAddress c))
         (verifications s).

(** While the component is alive exactly one interval is set, the one the
    cleanup will clear, with a delay of 30 s; afterwards none is. *)
Definition interval_held (m : Instance) : Prop :=
  if alive m
  then exists h w, cleanup m = Some h /\
                   intervals (browser m) = [{| handle := h; delay := 30000; waited := w |}]
  else cleanup m = None /\ intervals (browser m) = [].

End ScreenpipeVerificationPanel.


(** ** BlockchainSelector.tsx *)
Module BlockchainSelector.
Import Js.

(** A value read from a JavaScript object by key: one of the string values
    written in the object literal, or a member inherited from
    [Object.prototype] (a function or an object, never a string). *)
Inductive Value :=
| Str (s : string)
| ObjectPrototypeMember (name : string).

Record NetworkInfo := { chainId : string; chainName : Value }.

(** The requests the component sends to [window.ethereum]. *)
Inductive Request :=
| eth_requestAccounts
| eth_chainId
| wallet_requestPermissions
| wallet_switchEthereumChain (chainId : string)
| wallet_addEthereumChain (chainId chainName currencyName symbol : string)
                          (decimals : Z) (rpcUrl blockExplorerUrl : string).

Inductive Call :=
| CallConfirm (text : string)
| CallRequest (r : Request)
| CallOnChange (value : string)
| CallConsoleError (label : string)
| CallConsoleWarn (label : string).

(** The browser around the component: the injected wallet provider, if
    any, which resolves ([None]) or rejects ([Some e]) a request, and the
    answer the user gives to [window.confirm]. *)
Record Window := {
  ethereum : option (Request -> option Thrown);
  confirm : bool }.

Record Selector := {
  currentNetwork : option NetworkInfo;
  isLoading : bool;
  error : option string;
  (** every call made so far, oldest first *)
  calls : list Call }.

Definition initial : Selector :=
  {| currentNetwork := None; isLoading := false; error := None; calls := [] |}.

(** *** Network names *)

(** The object literal of [getNetworkName]. *)
Definition networkNames : gmap string string :=
  list_to_map
    [("0x1", "Ethereum Mainnet");
     ("0x5", "Goerli Testnet");
     ("0xaa36a7", "Sepolia Testnet");
     ("0x89", "Polygon Mainnet");
     ("0x13881", "Mumbai Testnet");
     ("0xa", "Optimism");
     ("0xa4b1", "Arbitrum One");
     ("0x279f", "Monad Testnet")].

(** The members every object literal inherits from [Object.prototype]:
    functions, and the prototype object itself under [__proto__]. *)
Definition object_prototype : list string :=
  ["constructor"; "__defineGetter__"; "__defineSetter__"; "hasOwnProperty";
   "__lookupGetter__"; "__lookupSetter__"; "isPrototypeOf";
   "propertyIsEnumerable"; "toString"; "valueOf"; "__proto__";
   "toLocaleString"].

(** [o[key]] for an object literal [o] with string values: an own property
    first, then the prototype, else [undefined]. *)
Definition get_property (o : gmap string string) (key : string) : option Value :=
  match o !! key with
  | Some v => Some (Str v)
  | None =>
      if existsb (String.eqb key) object_prototype
      then Some (ObjectPrototypeMember key)
      else None
  end.

(** [a || b]: an empty string and [undefined] are falsy, a function or an
    object is truthy. *)
Definition or_value (a : option Value) (b : Value) : Value :=
  match a with
  | Some (Str EmptyString) => b
  | Some v => v
  | None => b
  end.

(** The value the promise of [getNetworkName] resolves to. *)
Definition getNetworkName (chainId : string) : Value :=
  or_value (get_property networkNames (toLowerCase chainId))
           (Str ("Chain " +:+ number_to_string (parseInt16 chainId))).

(** *** Handlers as computations that change the state and may throw *)

Inductive Completion (A : Type) :=
| Returned (a : A)
| Threw (e : Thrown).
Arguments Returned {A} a.
Arguments Threw {A} e.

Definition M (A : Type) : Type := Selector -> Completion A * Selector.

Definition ret {A} (a : A) : M A := fun s => (Returned a, s).

Definition throw {A} (e : Thrown) : M A := fun s => (Threw e, s).

Definition bind {A B} (m : M A) (k : A -> M B) : M B :=
  fun s => match m s with
           | (Returned a, s') => k a s'
           | (Threw e, s') => (Threw e, s')
           end.

(** [try { m } catch (e) { h e }] *)
Definition try_catch {A} (m : M A) (h : Thrown -> M A) : M A :=
  fun s => match m s with
           | (Returned a, s') => (Returned a, s')
           | (Threw e, s') => h e s'
           end.

(** [try { m } finally { f }] *)
Definition try_finally {A} (m : M A) (f : M unit) : M A :=
  fun s => match m s with
           | (c, s') => match f s' with
                        | (Returned _, s'') => (c, s'')
                        | (Threw e, s'') => (Threw e, s'')
                        end
           end.

Notation "x <- m ;; k" := (bind m (fun x => k))
  (at level 100, m at next level, right associativity).
Notation "m ;; k" := (bind m (fun _ => k))
  (at level 100, right associativity).

Definition get : M Selector := fun s => (Returned s, s).

Definition setCurrentNetwork (n : option NetworkInfo) : M unit :=
  fun s => (Returned tt, {| currentNetwork := n; isLoading := isLoading s;
                            error := error s; calls := calls s |}).

Definition setIsLoading (b : bool) : M unit :=
  fun s => (Returned tt, {| currentNetwork := currentNetwork s; isLoading := b;
                            error := error s; calls := calls s |}).

Definition setError (e : option string) : M unit :=
  fun s => (Returned tt, {| currentNetwork := currentNetwork s; isLoading := isLoading s;
                            error := e; calls := calls s |}).

Definition call (c : Call) : M unit :=
  fun s => (Returned tt, {| currentNetwork := currentNetwork s; isLoading := isLoading s;
                            error := error s; calls := calls s ++ [c] |}).

(** [window.confirm(text)] *)
Definition window_confirm (w : Window) (text : string) : M bool :=
  call (CallConfirm text) ;; ret (confirm w).

(** [await window.ethereum.request(r)]; without an injected provider the
    member access throws before anything is sent. *)
Definition request (w : Window) (r : Request) : M unit :=
  match ethereum w with
  | None => throw (TypeError "request")
  | Some provider =>
      call (CallRequest r) ;;
      match provider r with
      | None => ret tt
      | Some e => throw e
      end
  end.

(** The first property access on the caught value, [err.code]: on
    [undefined] or [null] the access itself throws. *)
Definition properties (err : Thrown) : M JsError :=
  match err with
  | nullish => throw (TypeError "code")
  | object e => ret e
  end.

(** [err.code === n] *)
Definition code_is (e : JsError) (n : Z) : bool :=
  match code e with
  | Some c => Z.eqb c n
  | None => false
  end.

Definition nl : string := String (ascii_of_nat 10) EmptyString.

Definition confirmation_text : string :=
  "You're adding Monad Testnet to MetaMask:" +:+ nl +:+ nl +:+
  "Network Name: Monad Testnet" +:+ nl +:+
  "Chain ID: 10143 (0x279F)" +:+ nl +:+
  "RPC URL: https://testnet-rpc.monad.xyz" +:+ nl +:+
  "Currency Symbol: MON" +:+ nl +:+
  "Block Explorer: https://testnet.monadeexplorer.com" +:+ nl +:+ nl +:+
  "Please verify these details before continuing.".

Definition add_monad_testnet : Request :=
  wallet_addEthereumChain "0x279F" "Monad Testnet" "Monad" "MON" 18
    "https://testnet-rpc.monad.xyz" "https://testnet.monadeexplorer.com".

(** The [catch] block of [handleAddMonadTestnet]: the last test reads
    [err.message.includes], which throws when the error has no message. *)
Definition add_error_message (err : JsError) : M string :=
  if code_is err 4001 then ret "User rejected the request"
  else if code_is err (-32602) then ret "Invalid parameters"
  else if code_is err (-32603) then ret "Internal error - check RPC URL"
  else match message err with
       | Some m => ret (if includes "chain ID" m
                        then "Invalid chain ID" else "Failed to add network")
       | None => throw (TypeError "includes")
       end.

Definition handleAddMonadTestnet (w : Window) : M unit :=
  setIsLoading true ;;
  setError None ;;
  try_finally
    (try_catch
       (confirmed <- window_confirm w confirmation_text ;;
        if negb confirmed
        then setIsLoading false
        else
          request w add_monad_testnet ;;
          try_catch
            (request w (wallet_switchEthereumChain "0x279F"))
            (fun switchError => call (CallConsoleWarn "Added but failed to switch to Monad:")))
       (fun err =>
          call (CallConsoleError "Network addition error:") ;;
          e <- properties err ;;
          errorMessage <- add_error_message e ;;
          setError (Some (errorMessage +:+
                          ". Please check the network details and try again."))))
    (setIsLoading false).

Definition handleSwitchNetwork (w : Window) : M unit :=
  rendered <- get ;;
  setIsLoading true ;;
  setError None ;;
  try_finally
    (try_catch
       (request w wallet_requestPermissions ;;
        request w (wallet_switchEthereumChain
                     (or_else (option_map chainId (currentNetwork rendered)) "0x1")))
       (fun err =>
          e <- properties err ;;
          (if code_is e 4001
           then setError (Some "Network switch rejected")
           else setError (Some "Failed to switch network")) ;;
          call (CallConsoleError "")))
    (setIsLoading false).

(** [updateCurrentNetwork], which [handleChainChanged] calls with the chain
    id the wallet announces. *)
Definition updateCurrentNetwork (id : string) : M unit :=
  try_catch
    (let networkName := getNetworkName id in
     setCurrentNetwork (Some {| chainId := id; chainName := networkName |}) ;;
     call (CallOnChange id) ;;
     setError None)
    (fun err => setError (Some "Failed to get network info")).

Definition handleChainChanged (id : string) : M unit := updateCurrentNetwork id.

(** The state a handler leaves behind, and how it completed. *)
Definition exec {A} (m : M A) (s : Selector) : Selector := snd (m s).
Definition completion {A} (m : M A) (s : Selector) : Completion A := fst (m s).

End BlockchainSelector.


(** ** Concrete components used to exercise the definitions *)
Module Examples.
Import Js Hook ScreenpipeVerificationPanel.

(** Achievement a1 of the spec's scenario, a second completed one and one
    that is not completed; the wallet is 0xABC. *)
Definition a1 : Achievement :=
  {| id := "a1"; title := "Hello"; description := "Say hello"; rewardAmount := 10;
     completed := true; timestamp := None; verificationStatus := pending |}.

Definition a2 : Achievement :=
  {| id := "a2"; title := "World"; description := "See the world"; rewardAmount := 20;
     completed := true; timestamp := None; verificationStatus := pending |}.

Definition a3 : Achievement :=
  {| id := "a3"; title := "Later"; description := "Not done yet"; rewardAmount := 5;
     completed := false; timestamp := None; verificationStatus := pending |}.

Definition props0 : Props :=
  {| achievements := [a1; a2; a3]; walletAddress := Some "0xABC";
     onVerificationComplete := true |}.

(** The panel once the first fetch has resolved and a1 is selected. *)
Definition ready : Panel :=
  run [FetchSettles 0 true; ClickPendingCard 0] (mount props0).

Definition boom : JsError :=
  {| Js.code := None; Js.message := Some "capture service timed out" |}.

(** What [new Error()] carries: an empty message. *)
Definition silent : JsError := {| Js.code := None; Js.message := Some "" |}.

(** A parent that does what the spec asks of the registry: a positive
    notification marks the achievement verified and stamps it. *)
Definition stamp (i : string) (v : bool) (l : list Achievement) : list Achievement :=
  List.map (fun a => if v && String.eqb (id a) i
                     then {| id := id a; title := title a; description := description a;
                             rewardAmount := rewardAmount a; completed := completed a;
                             timestamp := Some "2026-01-01T00:00:00.000Z";
                             verificationStatus := verified |}
                     else a) l.

(** The card of a1 with the wallet, and the card of a3. *)
Definition card1 : AchievementCard.Card :=
  AchievementCard.mount
    {| AchievementCard.achievement := a1;
       AchievementCard.walletAddress := Some "0xABC";
       AchievementCard.onVerificationComplete := true |}.

Definition card3 : AchievementCard.Card :=
  AchievementCard.mount
    {| AchievementCard.achievement := a3;
       AchievementCard.walletAddress := Some "0xABC";
       AchievementCard.onVerificationComplete := true |}.

(** The parent's next props: a1 is no longer completed, the wallet is
    0xDEF. *)
Definition a1_undone : Achievement :=
  {| id := "a1"; title := "Hello"; description := "Say hello"; rewardAmount := 10;
     completed := false; timestamp := None; verificationStatus := pending |}.

Definition props1 : Props :=
  {| achievements := [a1_undone; a2; a3]; walletAddress := Some "0xDEF";
     onVerificationComplete := true |}.

(** a1 is selected while it is completed; then the parent renders props1,
    the user clicks Verify and the capture service answers true. *)
Definition stale : list Event :=
  [FetchSettles 0 true; ClickPendingCard 0; ParentRenders props1;
   ClickVerify; VerifySettles 0 (Resolved true)].

(** a1 is being verified when the user selects a2 and asks to verify it;
    then the capture service answers false for a1. *)
Definition overlap : list Event :=
  [FetchSettles 0 true; ClickPendingCard 0; ClickVerify;
   ClickPendingCard 1; ClickVerify; VerifySettles 0 (Resolved false)].

End Examples.

Module SelectorExamples.
Import Js BlockchainSelector.

Definition invalid_params : JsError :=
  {| code := Some (-32602); message := Some "Invalid params" |}.

(** The wallet's internal error, here without a message. *)
Definition internal_error : JsError := {| code := Some (-32603); message := None |}.

Definition unknown_error : JsError :=
  {| code := Some 12345; message := Some "Something else went wrong" |}.

Definition user_rejected : JsError :=
  {| code := Some 4001; message := Some "User rejected the request." |}.

(** A wallet that rejects every switch request with [e] and resolves
    everything else; the user confirms. *)
Definition rejects_switch (e : JsError) : Window :=
  {| ethereum := Some (fun r => match r with
                                | wallet_switchEthereumChain _ => Some (object e)
                                | _ => None
                                end);
     confirm := true |}.

(** A wallet that rejects the add-chain request with [e]. *)
Definition rejects_add (e : JsError) : Window :=
  {| ethereum := Some (fun r => match r with
                                | wallet_addEthereumChain _ _ _ _ _ _ _ => Some (object e)
                                | _ => None
                                end);
     confirm := true |}.

(** A wallet that rejects every request with [undefined]. *)
Definition rejects_with_undefined : Window :=
  {| ethereum := Some (fun _ => Some nullish); confirm := true |}.

(** An error object without code and without message. *)
Definition bare : JsError := {| code := None; message := None |}.

(** A wallet that resolves everything, with a user who declines and one
    who confirms. *)
Definition declines : Window := {| ethereum := Some (fun _ => None); confirm := false |}.
Definition accepts : Window := {| ethereum := Some (fun _ => None); confirm := true |}.

(** The selector on Ethereum Mainnet after a failed switch. *)
Definition failed_before : Selector :=
  {| currentNetwork := Some {| chainId := "0x1"; chainName := Str "Ethereum Mainnet" |};
     isLoading := false;
     error := Some "Failed to switch network";
     calls := [] |}.

End SelectorExamples.

(** ** The effect of BlockchainSelector.tsx: reading the chain and listening *)
Module SelectorEffect.
Import Js BlockchainSelector.

(** Where the asynchronous [init] of the effect stands. *)
Inductive Stage := Settled | AwaitingAccounts | AwaitingChainId.

(** One run of the effect ([onChange] does not change, so the effect runs
    once).  [listening] tells whether [handleChainChanged] is attached to
    the provider, [alive] is false once the component is unmounted. *)
Record Instance := {
  selector : Selector;
  stage : Stage;
  listening : bool;
  alive : bool }.

(** A handler that runs after the component was unmounted still makes its
    calls, but React drops its state updates. *)
Definition commit (alive : bool) (m : M unit) (s : Selector) : Selector :=
  if alive then exec m s
  else {| currentNetwork := currentNetwork s; isLoading := isLoading s;
          error := error s; calls := calls (exec m s) |}.

(** The body of the effect up to the first [await] of [init]; [provider]
    tells whether [window.ethereum] is defined. *)
Definition effect (provider : bool) (s : Selector) : Instance :=
  if provider
  then {| selector := exec (setIsLoading true ;; call (CallRequest eth_requestAccounts)) s;
          stage := AwaitingAccounts; listening := false; alive := true |}
  else {| selector := exec (setError (Some "MetaMask not detected")) s;
          stage := Settled; listening := false; alive := true |}.

(** The [catch] and [finally] blocks of [init]. *)
Definition init_failed : M unit :=
  setError (Some "Failed to connect to MetaMask") ;; setIsLoading false.

Inductive Event :=
| AccountsSettle (rejected : option JsError)
| ChainIdSettles (answer : string + JsError)
| ChainChanged (id : string)
| Unmount (removeListener : bool).

(** [Unmount removeListener] runs the cleanup, [removeListener] telling
    whether the provider has that method.  The settlement of a promise
    nobody awaits and a chain change nobody listens to change nothing. *)
Definition step (e : Event) (m : Instance) : Instance :=
  match e, stage m with
  | AccountsSettle None, AwaitingAccounts =>
      {| selector := commit (alive m) (call (CallRequest eth_chainId)) (selector m);
         stage := AwaitingChainId; listening := listening m; alive := alive m |}
  | AccountsSettle (Some _), AwaitingAccounts =>
      {| selector := commit (alive m) init_failed (selector m);
         stage := Settled; listening := listening m; alive := alive m |}
  | ChainIdSettles (inl id), AwaitingChainId =>
      {| selector := commit (alive m) (updateCurrentNetwork id ;; setIsLoading false)
                            (selector m);
         stage := Settled; listening := true; alive := alive m |}
  | ChainIdSettles (inr _), AwaitingChainId =>
      {| selector := commit (alive m) init_failed (selector m);
         stage := Settled; listening := listening m; alive := alive m |}
  | ChainChanged id, _ =>
      if listening m
      then {| selector := commit (alive m) (handleChainChanged id) (selector m);
              stage := stage m; listening := listening m; alive := alive m |}
      else m
  | Unmount removeListener, _ =>
      if alive m
      then {| selector := selector m; stage := stage m;
              listening := if removeListener then false else listening m;
              alive := false |}
      else m
  | _, _ => m
  end.

Definition run (es : list Event) (m : Instance) : Instance :=
  fold_left (fun m e => step e m) es m.

(** What happens to the component during one run of the effect: an event
    of the effect, or a click on one of the two buttons, the wallet and the
    user then behaving as [w] says.  The network button is disabled while
    loading; an unmounted component has no buttons. *)
Inductive Action :=
| OfEffect (e : Event)
| ClickSwitchNetwork (w : Window)
| ClickAddMonadTestnet (w : Window).

Definition act (a : Action) (m : Instance) : Instance :=
  match a with
  | OfEffect e => step e m
  | ClickSwitchNetwork w =>
      if alive m && negb (isLoading (selector m))
      then {| selector := exec (handleSwitchNetwork w) (selector m);
              stage := stage m; listening := listening m; alive := alive m |}
      else m
  | ClickAddMonadTestnet w =>
      if alive m
      then {| selector := exec (handleAddMonadTestnet w) (selector m);
              stage := stage m; listening := listening m; alive := alive m |}
      else m
  end.

Definition act_all (acts : list Action) (m : Instance) : Instance :=
  fold_left (fun m a => act a m) acts m.

(** The chain name the selector holds is the one [getNetworkName] gives
    for the chain id it holds. *)
Definition named (s : Selector) : Prop :=
  match currentNetwork s with
  | Some n => chainName n = getNetworkName (chainId n)
  | None => True
  end.

(** How often the parent's [onChange] was called. *)
Definition onChange_calls (s : Selector) : list string :=
  omap (fun c => match c with CallOnChange v => Some v | _ => None end) (calls s).

(** The chain shown is the last one passed to [onChange]. *)
Definition in_sync (s : Selector) : Prop :=
  option_map chainId (currentNetwork s) = last (onChange_calls s).

(** The requests sent to the wallet, in order. *)
Definition requests (s : Selector) : list Request :=
  omap (fun c => match c with CallRequest r => Some r | _ => None end) (calls s).

(** The code [e] carries is none of the three [handleAddMonadTestnet]
    knows. *)
Definition unknown_code (e : JsError) : bool :=
  negb (code_is e 4001) && negb (code_is e (-32602)) && negb (code_is e (-32603)).

(** Every code unit of [s] is a hexadecimal digit. *)
Fixpoint all_hex (s : string) : bool :=
  match s with
  | EmptyString => true
  | String c r => match hex_digit c with Some _ => all_hex r | None => false end
  end.

End SelectorEffect.

(** * Properties of the verification panel and the achievement card *)
Module PanelProofs.
Import Js Hook ScreenpipeVerificationPanel Examples.

Lemma callbacks_app cs ds : callbacks (cs ++ ds) = callbacks cs ++ callbacks ds.
Proof.
  induction cs as [|c cs IH]; [reflexivity|].
  destruct c; simpl; rewrite ?IH; reflexivity.
Qed.

Lemma verify_calls_app cs ds : verify_calls (cs ++ ds) = verify_calls cs ++ verify_calls ds.
Proof.
  induction cs as [|c cs IH]; [reflexivity|].
  destruct c; simpl; rewrite ?IH; reflexivity.
Qed.

Lemma truthy_Some (o : option string) :
  truthy o = true -> exists c w, o = Some (String c w).
Proof. destruct o as [[|c w]|]; simpl; try discriminate. eauto. Qed.

(** ** Connection status *)

(** C4, as the spec states it, fails for the periodic timer: when the
    interval fires on a connected panel the status stays connected, it does
    not go back to connecting. *)
Lemma C4_interval_keeps_status :
  connectionStatus ready = connected /\
  connectionStatus (step IntervalFires ready) = connected /\
  connectionStatus (step IntervalFires ready) <> connecting.
Proof. repeat split; try reflexivity. discriminate. Qed.

(** C4 (amended): the status starts as connecting; a fetch that resolves
    sets it to connected and one that fails sets it to disconnected, whoever
    started the fetch; the Refresh button, when enabled, sets connecting and
    starts a fetch; the interval starts a fetch and leaves the status as it
    is until that fetch settles. *)
Theorem connection_status_transitions :
  (forall p, connectionStatus (mount p) = connecting /\
             fetches (mount p) = [ByInitializeScreenpipe]) /\
  (forall s i f ok, fetches s !! i = Some f ->
     connectionStatus (step (FetchSettles i ok) s) = if ok then connected else disconnected) /\
  (forall s, refresh_disabled s = false ->
     connectionStatus (step ClickRefresh s) = connecting /\
     fetches (step ClickRefresh s) = fetches s ++ [ByRefreshButton] /\
     calls (step ClickRefresh s) = calls s ++ [CallFetchScreenpipeData]) /\
  (forall s,
     connectionStatus (step IntervalFires s) = connectionStatus s /\
     fetches (step IntervalFires s) = fetches s ++ [ByInitializeScreenpipe] /\
     calls (step IntervalFires s) = calls s ++ [CallFetchScreenpipeData]).
Proof.
  split; [|split; [|split]].
  - intros p. split; reflexivity.
  - intros s i f ok Hf. simpl. rewrite Hf.
    destruct f, ok; reflexivity.
  - intros s Hs. simpl. rewrite Hs. repeat split; reflexivity.
  - intros s. repeat split; reflexivity.
Qed.

Lemma connection_status_transitions_witness :
  connectionStatus (step (FetchSettles 0 false) (mount props0)) = disconnected /\
  connectionStatus (step ClickRefresh ready) = connecting.
Proof.
  destruct connection_status_transitions as (_ & Hsettle & Hrefresh & _).
  split.
  - exact (Hsettle (mount props0) 0%nat ByInitializeScreenpipe false eq_refl).
  - exact (proj1 (Hrefresh ready eq_refl)).
Defined.

(** ** Notifying the parent *)

Lemma verifySelectedAchievement_begin_ok s a c w :
  selectedAchievement s = Some a ->
  walletAddress (props s) = Some (String c w) ->
  verifySelectedAchievement_begin s =
    (Some {| closed_selectedAchievement := a;
             closed_walletAddress := String c w;
             closed_onVerificationComplete := onVerificationComplete (props s) |},
     set_hook (verifyAchievement_begin (resetVerificationState (hook s)))
       (call [CallResetVerificationState; CallVerifyAchievement a (String c w)]
          (setLastVerificationResult None s))).
Proof.
  intros Ha Hw. unfold verifySelectedAchievement_begin. rewrite Ha, Hw. reflexivity.
Qed.

(** On a clean false the panel only records the failure: after the verify
    call it makes no further call. *)
Lemma verifySelectedAchievement_false s a c w :
  selectedAchievement s = Some a ->
  walletAddress (props s) = Some (String c w) ->
  calls (verifySelectedAchievement (Resolved false) s)
    = calls s ++ [CallResetVerificationState; CallVerifyAchievement a (String c w)].
Proof.
  intros Ha Hw. unfold verifySelectedAchievement.
  rewrite (verifySelectedAchievement_begin_ok s a c w Ha Hw). reflexivity.
Qed.

(** C1, as the spec states it, fails when the capture service throws: the
    panel notifies nobody, although the callback is supplied. *)
Lemma C1_no_callback_when_verify_throws :
  onVerificationComplete (props ready) = true /\
  verify_calls (calls (verifySelectedAchievement (Rejected boom) ready)) = [(a1, "0xABC")] /\
  callbacks (calls (verifySelectedAchievement (Rejected boom) ready)) = [].
Proof. repeat split; reflexivity. Qed.

(** C1 (amended): when the capture service resolves true the panel calls
    onVerificationComplete, if it is supplied, once, after the verify call,
    with the selected achievement's id and true; when the capture service
    throws, the panel notifies nobody and the card lets the rejection
    escape; the card's handleVerify passes the boolean outcome alone to its
    callback whenever the capture service resolves. *)
Theorem verification_callback :
  (forall s a, selectedAchievement s = Some a ->
     truthy (walletAddress (props s)) = true ->
     exists w, walletAddress (props s) = Some w /\
       calls (verifySelectedAchievement (Resolved true) s) =
         calls s ++ [CallResetVerificationState; CallVerifyAchievement a w]
                 ++ (if onVerificationComplete (props s)
                     then [CallOnVerificationComplete (id a) true] else [])
                 ++ [CallToast "Verification Successful"
                               (title a +:+ " has been verified") "default"]) /\
  (forall s e,
     callbacks (calls (verifySelectedAchievement (Rejected e) s)) = callbacks (calls s)) /\
  (forall c v,
     AchievementCard.calls (fst (AchievementCard.handleVerify (Resolved v) c)) =
       AchievementCard.calls c
       ++ [AchievementCard.CallVerifyAchievement
             (AchievementCard.achievement (AchievementCard.props c))
             (AchievementCard.walletAddress (AchievementCard.props c))]
       ++ (if AchievementCard.onVerificationComplete (AchievementCard.props c)
           then [AchievementCard.CallOnVerificationComplete v] else [])) /\
  (forall c e,
     AchievementCard.calls (fst (AchievementCard.handleVerify (Rejected e) c)) =
       AchievementCard.calls c
       ++ [AchievementCard.CallVerifyAchievement
             (AchievementCard.achievement (AchievementCard.props c))
             (AchievementCard.walletAddress (AchievementCard.props c))] /\
     snd (AchievementCard.handleVerify (Rejected e) c) = Some e).
Proof.
  split; [|split; [|split]].
  - intros s a Ha Hw. apply truthy_Some in Hw as (c & w & Hw).
    exists (String c w). split; [exact Hw|].
    unfold verifySelectedAchievement.
    rewrite (verifySelectedAchievement_begin_ok s a c w Ha Hw).
    simpl. rewrite <- app_assoc. reflexivity.
  - intros s e. unfold verifySelectedAchievement, verifySelectedAchievement_begin.
    destruct (selectedAchievement s) as [a|]; [|reflexivity].
    destruct (walletAddress (props s)) as [[|c w]|]; try reflexivity.
    simpl. rewrite !callbacks_app. simpl. rewrite !app_nil_r. reflexivity.
  - intros c v. simpl. rewrite <- app_assoc. reflexivity.
  - intros c e. split; reflexivity.
Qed.

Lemma verification_callback_witness :
  exists w, walletAddress (props ready) = Some w /\
    calls (verifySelectedAchievement (Resolved true) ready) =
      calls ready ++ [CallResetVerificationState; CallVerifyAchievement a1 w]
                  ++ (if onVerificationComplete (props ready)
                      then [CallOnVerificationComplete (id a1) true] else [])
                  ++ [CallToast "Verification Successful"
                                (title a1 +:+ " has been verified") "default"].
Proof.
  exact (proj1 verification_callback ready a1 eq_refl eq_refl).
Defined.

(** ** A failed verification *)

Lemma notified_callbacks registry cs l :
  notified registry cs l =
  fold_left (fun l iv => registry (fst iv) (snd iv) l) (callbacks cs) l.
Proof.
  revert l. induction cs as [|c cs IH]; intros l; [reflexivity|].
  destruct c; simpl; apply IH.
Qed.

(** C2, as the spec states it, fails for an error without a message: the
    panel shows its own fallback text, not the error's (empty) message.
    The text shown after a clean false is not the spec's wording either. *)
Lemma C2_thrown_error_without_message :
  (exists r,
     lastVerificationResult (verifySelectedAchievement (Rejected silent) ready) = Some r /\
     message r = "Verification failed due to an unexpected error" /\
     Some (message r) <> Js.message silent) /\
  (exists r,
     lastVerificationResult (verifySelectedAchievement (Resolved false) ready) = Some r /\
     message r <> "could not verify — ensure content is visible").
Proof.
  split.
  - eexists. split; [reflexivity|]. split; [reflexivity|]. discriminate.
  - eexists. split; [reflexivity|]. discriminate.
Qed.

(** C2 (amended): after a verify attempt that fails, the achievements and
    their verificationStatus are what they were before it, whatever the
    parent does with the notifications it receives; the panel never sets
    rejected.  The failure message is "Could not verify
    achievement. Make sure the content is visible on your screen." when the
    capture service resolves false; when it throws, it is the error's
    message if that is a non-empty string and "Verification failed due to
    an unexpected error" otherwise. *)
Theorem failed_verification registry s a o l :
  selectedAchievement s = Some a ->
  truthy (walletAddress (props s)) = true ->
  o <> Resolved true ->
  notified registry (calls (verifySelectedAchievement o s)) l = notified registry (calls s) l /\
  props (verifySelectedAchievement o s) = props s /\
  lastVerificationResult (verifySelectedAchievement o s) =
    Some match o with
         | Resolved _ =>
             {| success := false;
                message := "Could not verify achievement. Make sure the content is visible on your screen.";
                achievementId := Some (id a) |}
         | Rejected e =>
             {| success := false;
                message := or_else (Js.message e)
                                   "Verification failed due to an unexpected error";
                achievementId := None |}
         end.
Proof.
  intros Ha Hw Ho. apply truthy_Some in Hw as (c & w & Hw).
  unfold verifySelectedAchievement.
  rewrite (verifySelectedAchievement_begin_ok s a c w Ha Hw).
  rewrite !notified_callbacks.
  destruct o as [[|]|e]; [congruence| |];
    simpl; rewrite !callbacks_app; simpl; rewrite ?app_nil_r; auto.
Qed.

Lemma failed_verification_witness :
  notified stamp (calls (verifySelectedAchievement (Resolved false) ready)) [a1; a2; a3]
    = notified stamp (calls ready) [a1; a2; a3] /\
  props (verifySelectedAchievement (Resolved false) ready) = props ready /\
  lastVerificationResult (verifySelectedAchievement (Resolved false) ready) =
    Some {| success := false;
            message := "Could not verify achievement. Make sure the content is visible on your screen.";
            achievementId := Some "a1" |}.
Proof.
  apply (failed_verification stamp ready a1 (Resolved false)); [reflexivity|reflexivity|discriminate].
Defined.

(** ** The guards in front of the verify operation *)

Lemma guarded_mount p : guarded (mount p).
Proof.
  repeat split; simpl; try constructor. discriminate.
Qed.

Lemma pendingAchievements_completed p i a :
  pendingAchievements p !! i = Some a -> completed a = true.
Proof.
  intros H. apply list_elem_of_lookup_2, list_elem_of_In in H.
  apply filter_In in H as [_ H]. apply andb_true_iff in H. tauto.
Qed.

(** Calls that reach neither the capture service nor the parent keep the
    invariant. *)
Lemma guarded_ext s s' :
  guarded s ->
  selectedAchievement s' = selectedAchievement s ->
  verifications s' = verifications s ->
  verify_calls (calls s') = verify_calls (calls s) ->
  callbacks (calls s') = callbacks (calls s) ->
  guarded s'.
Proof.
  unfold guarded. intros (H1 & H2 & H3 & H4) E1 E2 E3 E4.
  rewrite E1, E2, E3, E4. auto.
Qed.

Lemma guarded_start_verification s : guarded s -> guarded (start_verification s).
Proof.
  intros H. unfold start_verification, verifySelectedAchievement_begin.
  destruct (selectedAchievement s) as [a|] eqn:Ha; [|exact H].
  destruct (walletAddress (props s)) as [[|c w]|]; try exact H.
  destruct H as (H1 & H2 & H3 & H4).
  unfold guarded. simpl. rewrite Ha, !verify_calls_app, !callbacks_app. simpl.
  rewrite !app_nil_r. split; [intros b [= <-]; auto|]. split; [|split].
  - apply Forall_app. split.
    + eapply Forall_impl; [exact H2|]. intros x Hx. apply in_or_app. now left.
    + constructor; [|constructor]. simpl. apply in_or_app. right. now left.
  - apply Forall_app. split; [exact H3|].
    constructor; [|constructor]. simpl. split; [auto|discriminate].
  - eapply Forall_impl; [exact H4|]. intros x (Hx & b & v & Hin & Hid).
    split; [exact Hx|]. exists b, v. split; [apply in_or_app; now left|exact Hid].
Qed.

Lemma guarded_settle s i c o :
  guarded s -> verifications s !! i = Some c ->
  guarded (verifySelectedAchievement_settle c o
             (set_verifications (delete i (verifications s)) s)).
Proof.
  intros (H1 & H2 & H3 & H4) Hc.
  assert (Hin : In (closed_selectedAchievement c, closed_walletAddress c)
                   (verify_calls (calls s))).
  { rewrite Forall_forall in H2. apply H2. eapply list_elem_of_lookup_2. exact Hc. }
  assert (H2' : Forall (fun c => In (closed_selectedAchievement c, closed_walletAddress c)
                                    (verify_calls (calls s)))
                       (delete i (verifications s))).
  { apply Forall_delete. exact H2. }
  destruct o as [[|]|e]; unfold guarded; simpl;
    rewrite ?verify_calls_app, ?callbacks_app; simpl; rewrite ?app_nil_r;
    try (repeat split; assumption).
  destruct (closed_onVerificationComplete c); simpl; rewrite ?app_nil_r;
    try (repeat split; assumption).
  split; [exact H1|]. split; [exact H2'|]. split; [exact H3|].
  apply Forall_app. split; [exact H4|].
  constructor; [|constructor]. simpl. split; [reflexivity|].
  exists (closed_selectedAchievement c), (closed_walletAddress c). auto.
Qed.

Lemma guarded_step e s : guarded s -> guarded (step e s).
Proof.
  intros H. destruct e; simpl.
  - destruct (pendingAchievements (props s) !! i) as [a|] eqn:Hi; [|exact H].
    destruct H as (H1 & H2 & H3 & H4). repeat split; simpl; try assumption.
    intros b [= <-]. eapply pendingAchievements_completed. exact Hi.
  - destruct (_ && _); [apply guarded_start_verification|]; exact H.
  - destruct (_ && _); [apply guarded_start_verification|]; exact H.
  - destruct (refresh_disabled s); [exact H|].
    eapply guarded_ext; [exact H|..]; try reflexivity;
      simpl; rewrite ?verify_calls_app, ?callbacks_app; simpl; now rewrite app_nil_r.
  - eapply guarded_ext; [exact H|..]; try reflexivity;
      simpl; rewrite ?verify_calls_app, ?callbacks_app; simpl; now rewrite app_nil_r.
  - destruct (fetches s !! i) as [[|]|]; [| |exact H]; destruct ok;
      (eapply guarded_ext; [exact H|..]; try reflexivity;
       simpl; rewrite ?verify_calls_app, ?callbacks_app; simpl; now rewrite ?app_nil_r).
  - destruct (verifications s !! i) as [c|] eqn:Hc; [|exact H].
    apply guarded_settle; assumption.
  - destruct (Hook.verifying (hook s)); [|exact H].
    eapply guarded_ext; [exact H|..]; reflexivity.
  - eapply guarded_ext; [exact H|..]; reflexivity.
Qed.

Lemma guarded_run es s : guarded s -> guarded (run es s).
Proof.
  revert s. induction es as [|e es IH]; intros s H; [exact H|].
  simpl. apply IH, guarded_step, H.
Qed.

(** Whatever the user, the promises and the parent do, the achievement
    object handed to the capture service is one that was completed when it
    was selected, the wallet address handed over is never empty, and the
    parent is only ever notified with true, about an object that was handed
    over; without a wallet address verifySelectedAchievement returns at its
    guard with no call and no change; the card's button does nothing for an
    achievement that is not completed or without a wallet address. *)
Theorem verify_guarded :
  (forall p es a w,
     In (a, w) (verify_calls (calls (run es (mount p)))) ->
     completed a = true /\ w <> "") /\
  (forall p es i v,
     In (i, v) (callbacks (calls (run es (mount p)))) ->
     v = true /\
     exists a w, In (a, w) (verify_calls (calls (run es (mount p)))) /\
                 id a = i /\ completed a = true) /\
  (forall s o,
     truthy (walletAddress (props s)) = false ->
     verifySelectedAchievement o s = s /\ start_verification s = s) /\
  (forall c,
     completed (AchievementCard.achievement (AchievementCard.props c)) = false \/
     truthy (AchievementCard.walletAddress (AchievementCard.props c)) = false ->
     AchievementCard.click c = c).
Proof.
  split; [|split; [|split]].
  - intros p es a w Hin.
    destruct (guarded_run es _ (guarded_mount p)) as (_ & _ & H3 & _).
    rewrite Forall_forall in H3. apply (H3 (a, w)), list_elem_of_In, Hin.
  - intros p es i v Hin.
    destruct (guarded_run es _ (guarded_mount p)) as (_ & _ & H3 & H4).
    rewrite Forall_forall in H3. rewrite Forall_forall in H4.
    destruct (H4 (i, v)) as (Hv & a & w & Ha & Hid); [apply list_elem_of_In, Hin|].
    split; [exact Hv|]. exists a, w. repeat split; try assumption.
    apply (H3 (a, w)), list_elem_of_In, Ha.
  - intros s o Hw.
    unfold verifySelectedAchievement, start_verification, verifySelectedAchievement_begin.
    destruct (selectedAchievement s); [|split; reflexivity].
    destruct (walletAddress (props s)) as [[|c w]|]; try discriminate; split; reflexivity.
  - intros c H. unfold AchievementCard.click, AchievementCard.button_rendered.
    destruct H as [-> | ->]; rewrite ?andb_false_r; reflexivity.
Qed.

Lemma verify_guarded_witness :
  (completed a1 = true /\ "0xABC" <> "") /\ AchievementCard.click card3 = card3.
Proof.
  destruct verify_guarded as (Hcalls & _ & _ & Hcard). split.
  - apply (Hcalls props0 [FetchSettles 0 true; ClickPendingCard 0; ClickVerify]).
    left. reflexivity.
  - apply Hcard. left. reflexivity.
Defined.

(** C3 fails on a selection that has gone stale.  a1 is selected while it
    is completed; the parent then hands in props in which a1 is not
    completed, so that it is no longer in the Pending tab; the selection
    stays, the Verify button stays enabled, and the guard of
    verifySelectedAchievement does not look at completed: the capture
    service is called for a1, and on true the parent is told to mark a1
    verified. *)
Theorem stale_selection_is_verified :
  achievements (props (run stale (mount props0))) = [a1_undone; a2; a3] /\
  completed a1_undone = false /\
  pendingAchievements (props (run stale (mount props0))) = [a2] /\
  List.map (fun aw => (id (fst aw), snd aw))
           (verify_calls (calls (run stale (mount props0)))) = [("a1", "0xDEF")] /\
  callbacks (calls (run stale (mount props0))) = [("a1", true)] /\
  List.map (fun a => (id a, completed a, verificationStatus a))
           (notified stamp (calls (run stale (mount props0)))
                     (achievements (props (run stale (mount props0)))))
    = [("a1", false, verified); ("a2", true, pending); ("a3", false, pending)].
Proof. repeat split; reflexivity. Qed.

(** ** One verification at a time *)

Lemma single_flight_ext s s' :
  single_flight s -> verifications s' = verifications s ->
  Hook.verifying (hook s') = Hook.verifying (hook s) -> single_flight s'.
Proof. unfold single_flight. intros H -> ->. exact H. Qed.

Lemma single_flight_idle s :
  single_flight s -> Hook.verifying (hook s) = false -> verifications s = [].
Proof.
  unfold single_flight. destruct (verifications s) as [|c [|d r]]; intros H Hv;
    [reflexivity|congruence|contradiction].
Qed.

Lemma single_flight_start s :
  single_flight s -> Hook.verifying (hook s) = false -> single_flight (start_verification s).
Proof.
  intros H Hv. pose proof (single_flight_idle s H Hv) as Hn.
  unfold start_verification, verifySelectedAchievement_begin.
  destruct (selectedAchievement s) as [a|]; [|exact H].
  destruct (walletAddress (props s)) as [[|c w]|]; try exact H.
  unfold single_flight. simpl. rewrite Hn. reflexivity.
Qed.

Lemma single_flight_step e s : single_flight s -> single_flight (step e s).
Proof.
  intros H. destruct e; simpl.
  - destruct (pendingAchievements (props s) !! i); [|exact H].
    eapply single_flight_ext; [exact H|reflexivity|reflexivity].
  - destruct (verify_button_rendered s && negb (verify_button_disabled s)) eqn:E; [|exact H].
    apply single_flight_start; [exact H|].
    unfold verify_button_disabled in E.
    destruct (Hook.verifying (hook s)); [|reflexivity].
    rewrite orb_true_r, andb_false_r in E. discriminate.
  - destruct (try_again_rendered s && negb (try_again_disabled s)) eqn:E; [|exact H].
    apply single_flight_start; [exact H|].
    unfold try_again_disabled in E.
    destruct (Hook.verifying (hook s)); [|reflexivity].
    rewrite andb_false_r in E. discriminate.
  - destruct (refresh_disabled s); [exact H|].
    eapply single_flight_ext; [exact H|reflexivity|reflexivity].
  - eapply single_flight_ext; [exact H|reflexivity|reflexivity].
  - destruct (fetches s !! i) as [[|]|]; [| |exact H]; destruct ok;
      (eapply single_flight_ext; [exact H|reflexivity|reflexivity]).
  - destruct (verifications s !! i) as [c|] eqn:Hc; [|exact H].
    unfold single_flight in H.
    destruct (verifications s) as [|c0 [|c1 r]] eqn:Hv; [discriminate| |contradiction].
    destruct i as [|i]; [|destruct i; discriminate].
    unfold single_flight. destruct o as [[|]|e]; reflexivity.
  - destruct (Hook.verifying (hook s)) eqn:Hv; [|exact H].
    eapply single_flight_ext; [exact H|reflexivity|reflexivity].
  - eapply single_flight_ext; [exact H|reflexivity|reflexivity].
Qed.

Lemma single_flight_run es s : single_flight s -> single_flight (run es s).
Proof.
  revert s. induction es as [|e es IH]; intros s H; [exact H|].
  simpl. apply IH, single_flight_step, H.
Qed.

(** How a second request is treated: a verify of a2 asked for while a1 is
    being verified is rejected, no call is made for a2, and the final state
    shows the outcome of a1, the one call that was started. *)
Lemma second_verify_is_rejected :
  selectedAchievement (run overlap (mount props0)) = Some a2 /\
  verifications (run overlap (mount props0)) = [] /\
  verify_calls (calls (run overlap (mount props0))) = [(a1, "0xABC")] /\
  lastVerificationResult (run overlap (mount props0))
    = Some (verification_result a1 (Resolved false)) /\
  forall o, lastVerificationResult (run overlap (mount props0))
            <> Some (verification_result a2 o).
Proof.
  repeat split; try reflexivity.
  intros [[|]|e]; vm_compute; discriminate.
Qed.

Lemma latest_ext s s' :
  in_flight_is_latest s ->
  verifications s' = verifications s ->
  verify_calls (calls s') = verify_calls (calls s) ->
  in_flight_is_latest s'.
Proof. unfold in_flight_is_latest. intros H -> ->. exact H. Qed.

Lemma latest_start s :
  verifications s = [] -> in_flight_is_latest (start_verification s).
Proof.
  intros Hn. unfold start_verification, verifySelectedAchievement_begin, in_flight_is_latest.
  destruct (selectedAchievement s) as [a|]; [|rewrite Hn; constructor].
  destruct (walletAddress (props s)) as [[|c w]|]; try (rewrite Hn; constructor).
  simpl. rewrite Hn, verify_calls_app. simpl.
  constructor; [|constructor]. simpl. apply last_snoc.
Qed.

Lemma latest_step e s :
  single_flight s -> in_flight_is_latest s -> in_flight_is_latest (step e s).
Proof.
  intros Hs H. destruct e; simpl.
  - destruct (pendingAchievements (props s) !! i); [|exact H].
    eapply latest_ext; [exact H|reflexivity|reflexivity].
  - destruct (verify_button_rendered s && negb (verify_button_disabled s)) eqn:E; [|exact H].
    apply latest_start, single_flight_idle; [exact Hs|].
    unfold verify_button_disabled in E.
    destruct (Hook.verifying (hook s)); [|reflexivity].
    rewrite orb_true_r, andb_false_r in E. discriminate.
  - destruct (try_again_rendered s && negb (try_again_disabled s)) eqn:E; [|exact H].
    apply latest_start, single_flight_idle; [exact Hs|].
    unfold try_again_disabled in E.
    destruct (Hook.verifying (hook s)); [|reflexivity].
    rewrite andb_false_r in E. discriminate.
  - destruct (refresh_disabled s); [exact H|].
    eapply latest_ext; [exact H|reflexivity|].
    simpl. rewrite verify_calls_app. simpl. apply app_nil_r.
  - eapply latest_ext; [exact H|reflexivity|].
    simpl. rewrite verify_calls_app. simpl. apply app_nil_r.
  - destruct (fetches s !! i) as [[|]|]; [| |exact H]; destruct ok;
      (eapply latest_ext; [exact H|reflexivity|]; simpl;
       rewrite ?verify_calls_app; simpl; rewrite ?app_nil_r; reflexivity).
  - destruct (verifications s !! i) as [c|] eqn:Hc; [|exact H].
    unfold in_flight_is_latest in *.
    assert (Hd : Forall (fun c => last (verify_calls (calls s))
                                  = Some (closed_selectedAchievement c, closed_walletAddress c))
                        (delete i (verifications s))) by (apply Forall_delete; exact H).
    destruct o as [[|]|e]; simpl; rewrite ?verify_calls_app; simpl;
      try destruct (closed_onVerificationComplete c); simpl;
      rewrite ?app_nil_r; exact Hd.
  - destruct (Hook.verifying (hook s)); [|exact H].
    eapply latest_ext; [exact H|reflexivity|reflexivity].
  - eapply latest_ext; [exact H|reflexivity|reflexivity].
Qed.

Lemma latest_run es : forall s,
  single_flight s -> in_flight_is_latest s ->
  single_flight (run es s) /\ in_flight_is_latest (run es s).
Proof.
  induction es as [|e es IH]; intros s Hs H; [auto|].
  simpl. apply IH; [apply single_flight_step, Hs|apply latest_step; assumption].
Qed.

(** C5: at most one verify call is in flight, and the hook reports
    verifying exactly while it is; while it is, the Verify and Try Again
    buttons do nothing at all, so a second call is rejected and the progress
    counter is untouched.  Hence no call is ever superseded and there is no
    stale resolution: a call that settles is always the one that was started
    last, and its outcome is what lastVerificationResult then holds. *)
Theorem one_verification_in_flight :
  (forall p es,
     (length (verifications (run es (mount p))) <= 1)%nat /\
     (Hook.verifying (hook (run es (mount p))) = true <->
      verifications (run es (mount p)) <> [])) /\
  (forall s, Hook.verifying (hook s) = true ->
     step ClickVerify s = s /\ step ClickTryAgain s = s) /\
  (forall c o s,
     lastVerificationResult (verifySelectedAchievement_settle c o s)
       = Some (verification_result (closed_selectedAchievement c) o)) /\
  (forall p es i c o,
     verifications (run es (mount p)) !! i = Some c ->
     last (verify_calls (calls (run es (mount p))))
       = Some (closed_selectedAchievement c, closed_walletAddress c) /\
     lastVerificationResult (step (VerifySettles i o) (run es (mount p)))
       = Some (verification_result (closed_selectedAchievement c) o)).
Proof.
  split; [|split; [|split]].
  - intros p es.
    assert (H : single_flight (run es (mount p))).
    { apply single_flight_run. reflexivity. }
    unfold single_flight in H.
    destruct (verifications (run es (mount p))) as [|c [|d r]]; [| |contradiction];
      simpl; rewrite H; split; try lia; split; congruence.
  - intros s Hv. simpl.
    unfold verify_button_disabled, try_again_disabled. rewrite Hv.
    rewrite orb_true_r, !andb_false_r. split; reflexivity.
  - intros c [[|]|e] s; reflexivity.
  - intros p es i c o Hc.
    destruct (latest_run es (mount p)) as [_ Hl]; [reflexivity|constructor|].
    split.
    + unfold in_flight_is_latest in Hl. rewrite Forall_forall in Hl.
      apply Hl. eapply list_elem_of_lookup_2. exact Hc.
    + simpl. rewrite Hc. destruct o as [[|]|e]; reflexivity.
Qed.

Lemma one_verification_in_flight_witness :
  (step ClickVerify (step ClickVerify ready) = step ClickVerify ready /\
   step ClickTryAgain (step ClickVerify ready) = step ClickVerify ready) /\
  lastVerificationResult
    (step (VerifySettles 0 (Resolved true))
          (run [FetchSettles 0 true; ClickPendingCard 0; ClickVerify] (mount props0)))
    = Some (verification_result a1 (Resolved true)).
Proof.
  destruct one_verification_in_flight as (_ & Hclick & _ & Hlast). split.
  - exact (Hclick (step ClickVerify ready) eq_refl).
  - exact (proj2 (Hlast props0 [FetchSettles 0 true; ClickPendingCard 0; ClickVerify]
                        0%nat _ (Resolved true) eq_refl)).
Defined.

(** ** Progress *)

Lemma advance_range d h :
  0 <= verificationProgress h <= 100 ->
  verificationProgress h <= verificationProgress (advance d h) <= 100.
Proof. simpl. lia. Qed.

Lemma settle_range o h :
  0 <= verificationProgress h <= 100 ->
  verificationProgress h <= verificationProgress (verifyAchievement_settle o h) <= 100.
Proof. destruct o as [[|]|e]; simpl; lia. Qed.

Lemma advances_sorted ds : forall h o,
  0 <= verificationProgress h <= 100 ->
  StronglySorted Z.le
    (verificationProgress h ::
     fst (advances ds h) ++ [verificationProgress (verifyAchievement_settle o (snd (advances ds h)))]) /\
  Forall (fun p => p <= 100)
    (verificationProgress h ::
     fst (advances ds h) ++ [verificationProgress (verifyAchievement_settle o (snd (advances ds h)))]).
Proof.
  induction ds as [|d ds IH]; intros h o Hh.
  - pose proof (settle_range o h Hh). simpl. split.
    + repeat constructor. lia.
    + repeat constructor; lia.
  - pose proof (advance_range d h Hh) as Ha.
    destruct (IH (advance d h) o) as [Hs Hr]; [lia|].
    cbn [advances]. destruct (advances ds (advance d h)) as [ps hn]. cbn [fst snd] in *.
    rewrite <- app_comm_cons. split.
    + constructor; [exact Hs|].
      apply StronglySorted_inv in Hs as [_ Hall].
      constructor; [lia|]. eapply Forall_impl; [exact Hall|]. simpl. intros; lia.
    + constructor; [lia|exact Hr].
Qed.

Lemma progress_trace_unfold ds o h :
  progress_trace ds o h =
  verificationProgress (verifyAchievement_begin h) ::
  fst (advances ds (verifyAchievement_begin h)) ++
  [verificationProgress (verifyAchievement_settle o (snd (advances ds (verifyAchievement_begin h))))].
Proof.
  unfold progress_trace. destruct (advances ds (verifyAchievement_begin h)). reflexivity.
Qed.

(** C6: over one verify call the progress counter never decreases, it ends
    at 100 when the call succeeds, and it is 0 right after
    resetVerificationState(). *)
Theorem progress_monotone :
  (forall ds o h, StronglySorted Z.le (progress_trace ds o h)) /\
  (forall ds h, List.last (progress_trace ds (Resolved true) h) 0 = 100) /\
  (forall c s,
     verificationProgress (hook (verifySelectedAchievement_settle c (Resolved true) s)) = 100) /\
  (forall h, verificationProgress (resetVerificationState h) = 0).
Proof.
  split; [|split; [|split]].
  - intros ds o h. rewrite progress_trace_unfold.
    apply advances_sorted. simpl. lia.
  - intros ds h. rewrite progress_trace_unfold.
    rewrite app_comm_cons, List.last_last. reflexivity.
  - intros c s. destruct (closed_onVerificationComplete c) eqn:E; simpl; reflexivity.
  - reflexivity.
Qed.

(** ** The periodic refresh *)

Lemma interval_held_mount n p : interval_held (mount_instance n p).
Proof. unfold interval_held. simpl. eauto. Qed.

Lemma interval_held_step e m : interval_held m -> interval_held (lifecycle_step e m).
Proof.
  unfold interval_held. destruct m as [pn [ts nh] cl al]. simpl.
  destruct al; simpl.
  - intros (h & w & -> & ->). destruct e; simpl; eauto.
    + unfold run_cleanup, effect, clearInterval. simpl.
      rewrite Nat.eqb_refl. simpl. eauto.
    + unfold run_cleanup, clearInterval. simpl. rewrite Nat.eqb_refl. simpl. auto.
  - intros (-> & ->). destruct e; simpl; auto.
Qed.

Lemma interval_held_run es m : interval_held m -> interval_held (lifecycle_run es m).
Proof.
  revert m. induction es as [|e es IH]; intros m H; [exact H|].
  simpl. apply IH, interval_held_step, H.
Qed.

Lemma fetch_count_iter k s :
  fetch_count (Nat.iter k initializeScreenpipe_begin s) = (k + fetch_count s)%nat.
Proof.
  induction k as [|k IH]; [reflexivity|].
  simpl Nat.iter. unfold fetch_count in *. simpl.
  rewrite List.filter_app, List.length_app. simpl. rewrite IH. lia.
Qed.

Lemma firings_split w a r :
  0 <= w -> 0 <= a -> 0 <= r ->
  (Z.to_nat ((w + a) / 30000) + Z.to_nat (((w + a) mod 30000 + r) / 30000))%nat
  = Z.to_nat ((w + (a + r)) / 30000).
Proof.
  intros Hw Ha Hr.
  pose proof (Z.div_mod (w + a) 30000 ltac:(lia)) as E.
  pose proof (Z.mod_pos_bound (w + a) 30000 ltac:(lia)) as B.
  assert (Hq : 0 <= (w + a) / 30000) by (apply Z.div_pos; lia).
  assert (Hq' : 0 <= ((w + a) mod 30000 + r) / 30000) by (apply Z.div_pos; lia).
  rewrite <- Z2Nat.inj_add by assumption. f_equal.
  replace (w + (a + r)) with ((w + a) / 30000 * 30000 + ((w + a) mod 30000 + r)) by lia.
  rewrite Z.div_add_l by lia. reflexivity.
Qed.

Lemma total_time_nonneg mss : 0 <= total_time mss.
Proof. induction mss as [|ms mss IH]; simpl; lia. Qed.

Lemma fetch_count_elapse mss : forall m h w,
  intervals (browser m) = [{| handle := h; delay := 30000; waited := w |}] ->
  0 <= w < 30000 ->
  fetch_count (panel (lifecycle_run (List.map Elapse mss) m))
  = (fetch_count (panel m) + Z.to_nat ((w + total_time mss) / 30000))%nat.
Proof.
  induction mss as [|ms mss IH]; intros m h w Hm Hw.
  - simpl. rewrite Z.add_0_r, Z.div_small by lia. simpl. lia.
  - simpl List.map. simpl lifecycle_run. simpl total_time.
    rewrite (IH (elapse ms m) h ((w + Z.max 0 ms) mod 30000)).
    + unfold elapse. simpl panel. rewrite Hm. simpl List.map. simpl list_sum.
      rewrite fetch_count_iter. unfold firings. simpl waited. simpl delay.
      rewrite Nat.add_0_r.
      pose proof (total_time_nonneg mss).
      rewrite <- (firings_split w (Z.max 0 ms) (total_time mss)) by lia. lia.
    + unfold elapse. simpl. rewrite Hm. reflexivity.
    + apply Z.mod_pos_bound. lia.
Qed.

Lemma lifecycle_run_app es es' m :
  lifecycle_run (es ++ es') m = lifecycle_run es' (lifecycle_run es m).
Proof. apply fold_left_app. Qed.

Lemma lifecycle_run_cons e es m :
  lifecycle_run (e :: es) m = lifecycle_run es (lifecycle_step e m).
Proof. reflexivity. Qed.

Lemma fetch_count_settle_unmounted e s :
  fetch_count (settle_unmounted e s) = fetch_count s.
Proof.
  unfold fetch_count. destruct e; try reflexivity; simpl.
  - destruct (fetches s !! i) as [[|]|]; [| |reflexivity]; destruct ok; simpl;
      rewrite ?List.filter_app; simpl; rewrite ?app_nil_r; reflexivity.
  - destruct (verifications s !! i) as [c|]; [|reflexivity].
    destruct o as [[|]|e]; simpl; rewrite ?List.filter_app; simpl;
      try destruct (closed_onVerificationComplete c); simpl;
      rewrite ?app_nil_r; reflexivity.
Qed.

Lemma lifecycle_step_unmounted e m :
  alive m = false -> intervals (browser m) = [] ->
  alive (lifecycle_step e m) = false /\
  intervals (browser (lifecycle_step e m)) = [] /\
  fetch_count (panel (lifecycle_step e m)) = fetch_count (panel m).
Proof.
  destruct m as [pn [ts nh] cl al]. simpl. intros -> ->.
  destruct e; simpl; auto using fetch_count_settle_unmounted.
Qed.

Lemma lifecycle_run_unmounted es : forall m,
  alive m = false -> intervals (browser m) = [] ->
  alive (lifecycle_run es m) = false /\
  intervals (browser (lifecycle_run es m)) = [] /\
  fetch_count (panel (lifecycle_run es m)) = fetch_count (panel m).
Proof.
  induction es as [|e es IH]; intros m Ha Hi; [auto|].
  rewrite lifecycle_run_cons.
  destruct (lifecycle_step_unmounted e m Ha Hi) as (Ha' & Hi' & Hf).
  destruct (IH _ Ha' Hi') as (Ha'' & Hi'' & Hf'').
  rewrite Hf'', Hf. auto.
Qed.

(** C9: from mount to unmount the component holds exactly one interval,
    with a delay of 30 s, also across a re-run of the effect; while it stays
    mounted the fetch is called once at mount and once more for every full
    30 s that pass; unmounting clears the interval on the spot, whatever
    happened before, and from then on no fetch is started any more, whatever
    time passes and whichever promises still settle. *)
Theorem refresh_interval :
  (forall n p es, interval_held (lifecycle_run es (mount_instance n p))) /\
  (forall n p mss,
     fetch_count (panel (lifecycle_run (List.map Elapse mss) (mount_instance n p)))
     = (1 + Z.to_nat (total_time mss / 30000))%nat) /\
  (forall n p es es',
     alive (lifecycle_run (es ++ Unmount :: es') (mount_instance n p)) = false /\
     intervals (browser (lifecycle_run (es ++ Unmount :: es') (mount_instance n p))) = [] /\
     fetch_count (panel (lifecycle_run (es ++ Unmount :: es') (mount_instance n p)))
       = fetch_count (panel (lifecycle_run es (mount_instance n p)))).
Proof.
  split; [|split].
  - intros n p es. apply interval_held_run, interval_held_mount.
  - intros n p mss.
    rewrite (fetch_count_elapse mss (mount_instance n p) n 0); [reflexivity|reflexivity|lia].
  - intros n p es es'. rewrite lifecycle_run_app, lifecycle_run_cons.
    set (m := lifecycle_run es (mount_instance n p)).
    assert (Hm : interval_held m) by apply interval_held_run, interval_held_mount.
    assert (Hu : alive (lifecycle_step Unmount m) = false /\
                 intervals (browser (lifecycle_step Unmount m)) = [] /\
                 panel (lifecycle_step Unmount m) = panel m).
    { unfold interval_held in Hm. destruct m as [pn [ts nh] cl al]. simpl in *.
      destruct al.
      - destruct Hm as (h & w & -> & ->). unfold run_cleanup, clearInterval. simpl.
        rewrite Nat.eqb_refl. simpl. auto.
      - destruct Hm as (-> & ->). simpl. auto. }
    destruct Hu as (Ha & Hi & Hp).
    destruct (lifecycle_run_unmounted es' _ Ha Hi) as (Ha' & Hi' & Hf).
    rewrite Hf, Hp. auto.
Qed.

(** A fetch that fails after the unmount still logs its error, and a
    verification that succeeds after the unmount still notifies the parent:
    the cleanup cancels the interval, not the promises. *)
Lemma settlements_after_unmount :
  calls (panel (lifecycle_run [Unmount; Ui (FetchSettles 0 false)] (mount_instance 0 props0)))
    = [CallFetchScreenpipeData; CallConsoleError "Screenpipe connection error:"] /\
  callbacks (calls (panel (lifecycle_run
                             [Ui (FetchSettles 0 true); Ui (ClickPendingCard 0); Ui ClickVerify;
                              Unmount; Ui (VerifySettles 0 (Resolved true))]
                             (mount_instance 0 props0))))
    = [("a1", true)].
Proof. split; reflexivity. Qed.

End PanelProofs.

(** * Properties of the network selector *)
Module SelectorProofs.
Import Js BlockchainSelector SelectorExamples.

(** ** Wallet errors *)

(** C7, as the spec states it, fails for a switch request: code -32602
    gets the same generic text as a code the component does not know. *)
Lemma C7_switch_invalid_parameters_is_generic :
  error (exec (handleSwitchNetwork (rejects_switch invalid_params)) initial)
    = Some "Failed to switch network" /\
  error (exec (handleSwitchNetwork (rejects_switch unknown_error)) initial)
    = Some "Failed to switch network" /\
  includes "nvalid parameters" "Failed to switch network" = false.
Proof. repeat split; reflexivity. Qed.

(** C7 (amended): when the wallet rejects the switch request of
    handleSwitchNetwork, code 4001 gives "Network switch rejected" and every
    other code, -32602 and -32603 included, gives "Failed to switch
    network".  The finer mapping belongs to a rejected add-chain request:
    4001 gives "User rejected the request", -32602 "Invalid parameters",
    -32603 "Internal error - check RPC URL", and any other error that
    carries a message gives "Invalid chain ID" if the message contains
    "chain ID" and "Failed to add network" if not, each followed by
    ". Please check the network details and try again.". *)
Theorem wallet_error_messages :
  (forall w provider s (e : JsError),
     ethereum w = Some provider ->
     provider wallet_requestPermissions = None ->
     provider (wallet_switchEthereumChain
                 (or_else (option_map chainId (currentNetwork s)) "0x1"))
       = Some (object e) ->
     error (exec (handleSwitchNetwork w) s)
       = Some (if code_is e 4001 then "Network switch rejected"
               else "Failed to switch network") /\
     isLoading (exec (handleSwitchNetwork w) s) = false /\
     completion (handleSwitchNetwork w) s = Returned tt) /\
  (forall w provider s (e : JsError),
     ethereum w = Some provider ->
     confirm w = true ->
     provider add_monad_testnet = Some (object e) ->
     code_is e 4001 || code_is e (-32602) || code_is e (-32603) = true ->
     error (exec (handleAddMonadTestnet w) s)
       = Some ((if code_is e 4001 then "User rejected the request"
                else if code_is e (-32602) then "Invalid parameters"
                else "Internal error - check RPC URL")
               +:+ ". Please check the network details and try again.") /\
     isLoading (exec (handleAddMonadTestnet w) s) = false /\
     completion (handleAddMonadTestnet w) s = Returned tt) /\
  (forall w provider s (e : JsError) m,
     ethereum w = Some provider ->
     confirm w = true ->
     provider add_monad_testnet = Some (object e) ->
     code_is e 4001 || code_is e (-32602) || code_is e (-32603) = false ->
     message e = Some m ->
     error (exec (handleAddMonadTestnet w) s)
       = Some ((if includes "chain ID" m then "Invalid chain ID"
                else "Failed to add network")
               +:+ ". Please check the network details and try again.") /\
     isLoading (exec (handleAddMonadTestnet w) s) = false /\
     completion (handleAddMonadTestnet w) s = Returned tt).
Proof.
  split; [|split].
  - intros w provider s e Hw Hp Hs.
    unfold exec, completion, handleSwitchNetwork, request, properties, bind, try_finally,
      try_catch, get, setIsLoading, setError, call, ret, throw.
    rewrite Hw. simpl. rewrite Hp. simpl. rewrite Hs. simpl.
    destruct (code_is e 4001); simpl; auto.
  - intros w provider s e Hw Hc Hp Hk.
    unfold exec, completion, handleAddMonadTestnet, window_confirm, request, properties,
      bind, try_finally, try_catch, setIsLoading, setError, call, ret, throw.
    simpl. rewrite Hc, Hw. simpl. rewrite Hp. simpl.
    unfold add_error_message.
    destruct (code_is e 4001); [simpl; auto|].
    destruct (code_is e (-32602)); [simpl; auto|].
    destruct (code_is e (-32603)); [simpl; auto|discriminate].
  - intros w provider s e m Hw Hc Hp Hk Hm.
    unfold exec, completion, handleAddMonadTestnet, window_confirm, request, properties,
      bind, try_finally, try_catch, setIsLoading, setError, call, ret, throw.
    simpl. rewrite Hc, Hw. simpl. rewrite Hp. simpl.
    unfold add_error_message. rewrite Hm.
    destruct (code_is e 4001); [discriminate|].
    destruct (code_is e (-32602)); [discriminate|].
    destruct (code_is e (-32603)); [discriminate|].
    destruct (includes "chain ID" m); simpl; auto.
Qed.

Lemma wallet_error_messages_witness :
  error (exec (handleSwitchNetwork (rejects_switch user_rejected)) failed_before)
    = Some "Network switch rejected" /\
  error (exec (handleAddMonadTestnet (rejects_add internal_error)) failed_before)
    = Some "Internal error - check RPC URL. Please check the network details and try again." /\
  error (exec (handleAddMonadTestnet (rejects_add unknown_error)) failed_before)
    = Some "Failed to add network. Please check the network details and try again.".
Proof.
  destruct wallet_error_messages as (Hswitch & Hknown & Hother). split; [|split].
  - exact (proj1 (Hswitch (rejects_switch user_rejected) _ failed_before user_rejected
                    eq_refl eq_refl eq_refl)).
  - exact (proj1 (Hknown (rejects_add internal_error) _ failed_before internal_error
                    eq_refl eq_refl eq_refl eq_refl)).
  - exact (proj1 (Hother (rejects_add unknown_error) _ failed_before unknown_error
                    "Something else went wrong" eq_refl eq_refl eq_refl eq_refl eq_refl)).
Defined.

(** ** Adding the Monad test network *)

(** C8, as the spec states it, fails: declining the confirmation sends no
    request, but it does change the state, the error shown before is gone. *)
Lemma C8_decline_clears_error :
  error failed_before = Some "Failed to switch network" /\
  error (exec (handleAddMonadTestnet declines) failed_before) = None /\
  calls (exec (handleAddMonadTestnet declines) failed_before)
    = [CallConfirm confirmation_text].
Proof. repeat split; reflexivity. Qed.

(** C8 (amended): handleAddMonadTestnet asks the user to confirm before
    anything is sent.  If the user declines, no request is sent, the current
    network is unchanged, a previously shown error is cleared and isLoading
    is false.  If the user confirms and the add succeeds, the switch to
    0x279F is requested next; when that switch fails, only a warning is
    logged: no error is shown and the handler returns normally. *)
Theorem add_chain_confirmation :
  (forall w s,
     confirm w = false ->
     exec (handleAddMonadTestnet w) s
       = {| currentNetwork := currentNetwork s; isLoading := false; error := None;
            calls := calls s ++ [CallConfirm confirmation_text] |} /\
     completion (handleAddMonadTestnet w) s = Returned tt) /\
  (forall w provider s,
     ethereum w = Some provider ->
     confirm w = true ->
     provider add_monad_testnet = None ->
     exec (handleAddMonadTestnet w) s
       = {| currentNetwork := currentNetwork s; isLoading := false; error := None;
            calls := calls s
                     ++ [CallConfirm confirmation_text; CallRequest add_monad_testnet;
                         CallRequest (wallet_switchEthereumChain "0x279F")]
                     ++ match provider (wallet_switchEthereumChain "0x279F") with
                        | None => []
                        | Some _ => [CallConsoleWarn "Added but failed to switch to Monad:"]
                        end |} /\
     completion (handleAddMonadTestnet w) s = Returned tt).
Proof.
  split.
  - intros w s Hc.
    unfold exec, completion, handleAddMonadTestnet, window_confirm, request, properties,
      bind, try_finally, try_catch, setIsLoading, setError, call, ret, throw.
    simpl. rewrite Hc. simpl. auto.
  - intros w provider s Hw Hc Hp.
    unfold exec, completion, handleAddMonadTestnet, window_confirm, request, properties,
      bind, try_finally, try_catch, setIsLoading, setError, call, ret, throw.
    simpl. rewrite Hc, Hw. simpl. rewrite Hp. simpl.
    destruct (provider (wallet_switchEthereumChain "0x279F")); simpl;
      rewrite <- ?app_assoc; simpl; auto.
Qed.

Lemma add_chain_confirmation_witness :
  calls (exec (handleAddMonadTestnet declines) failed_before)
    = [CallConfirm confirmation_text] /\
  calls (exec (handleAddMonadTestnet (rejects_switch user_rejected)) failed_before)
    = [CallConfirm confirmation_text; CallRequest add_monad_testnet;
       CallRequest (wallet_switchEthereumChain "0x279F");
       CallConsoleWarn "Added but failed to switch to Monad:"] /\
  error (exec (handleAddMonadTestnet (rejects_switch user_rejected)) failed_before) = None.
Proof.
  destruct add_chain_confirmation as (Hdecline & Hadd).
  destruct (Hdecline declines failed_before eq_refl) as [E1 _].
  destruct (Hadd (rejects_switch user_rejected) _ failed_before eq_refl eq_refl eq_refl)
    as [E2 _].
  rewrite E1, E2. repeat split; reflexivity.
Defined.

(** ** Network names *)

Lemma networkNames_nonempty k name : networkNames !! k = Some name -> name <> "".
Proof.
  intros H. apply elem_of_list_to_map_2 in H.
  repeat (apply elem_of_cons in H as [[= _ ->]|H]; [discriminate|]).
  apply elem_of_nil in H. contradiction.
Qed.

(** A chain id that lower-cases to a key of the table gets that key's
    name. *)
Lemma getNetworkName_known chainId name :
  networkNames !! toLowerCase chainId = Some name ->
  getNetworkName chainId = Str name.
Proof.
  intros H. unfold getNetworkName, get_property. rewrite H.
  pose proof (networkNames_nonempty _ _ H) as Hn.
  destruct name; [contradiction|reflexivity].
Qed.

(** A chain id that lower-cases neither to a key of the table nor to a
    member of [Object.prototype] gets "Chain " and the parsed number. *)
Lemma getNetworkName_unknown chainId :
  networkNames !! toLowerCase chainId = None ->
  existsb (String.eqb (toLowerCase chainId)) object_prototype = false ->
  getNetworkName chainId = Str ("Chain " +:+ number_to_string (parseInt16 chainId)).
Proof.
  intros H1 H2. unfold getNetworkName, get_property. rewrite H1, H2. reflexivity.
Qed.

(** A chain id that lower-cases to a member of [Object.prototype] gets that
    member, which is no string. *)
Lemma getNetworkName_inherited chainId :
  networkNames !! toLowerCase chainId = None ->
  existsb (String.eqb (toLowerCase chainId)) object_prototype = true ->
  getNetworkName chainId = ObjectPrototypeMember (toLowerCase chainId).
Proof.
  intros H1 H2. unfold getNetworkName, get_property. rewrite H1, H2. reflexivity.
Qed.

Lemma getNetworkName_examples :
  getNetworkName "0x1" = Str "Ethereum Mainnet" /\
  getNetworkName "0xAA36A7" = Str "Sepolia Testnet" /\
  getNetworkName "0x279F" = Str "Monad Testnet" /\
  getNetworkName "0x2a" = Str "Chain 42" /\
  getNetworkName "0x38" = Str "Chain 56" /\
  getNetworkName "mainnet" = Str "Chain NaN".
Proof. repeat split; vm_compute; reflexivity. Qed.

(** What the selector shows after the wallet announces a chain: for
    0x279F the name of the table, for "constructor" no string. *)
Lemma handleChainChanged_examples :
  currentNetwork (exec (handleChainChanged "0x279F") initial)
    = Some {| chainId := "0x279F"; chainName := Str "Monad Testnet" |} /\
  currentNetwork (exec (handleChainChanged "constructor") initial)
    = Some {| chainId := "constructor";
              chainName := ObjectPrototypeMember "constructor" |}.
Proof. split; vm_compute; reflexivity. Qed.

(** C10 fails at the chain id "constructor": it is none of the eight known
    ids and parses as hexadecimal to 12 (the leading c), so the claim asks
    for "Chain 12", but the lookup finds the member every object inherits
    under that name and getNetworkName resolves to it, which is no string at
    all. *)
Theorem getNetworkName_constructor :
  networkNames !! toLowerCase "constructor" = None /\
  number_to_string (parseInt16 "constructor") = "12" /\
  getNetworkName "constructor" = ObjectPrototypeMember "constructor" /\
  getNetworkName "constructor" <> Str "Chain 12".
Proof. repeat split; try (vm_compute; reflexivity). vm_compute. discriminate. Qed.

End SelectorProofs.

(** * Further properties of the network selector *)
Module SelectorExtra.
Import Js BlockchainSelector SelectorExamples SelectorEffect.

Ltac run_handler :=
  unfold exec, completion, requests, handleSwitchNetwork, handleAddMonadTestnet,
    add_error_message, properties, window_confirm, request, bind, try_finally, try_catch,
    get, setIsLoading, setError, call, ret, throw; simpl.

(** ** handleSwitchNetwork *)

(** Whatever the wallet does, handleSwitchNetwork leaves isLoading false
    and the current network as it was.  It throws exactly when the request
    that fails is rejected with undefined or null, so that err.code cannot be
    read; otherwise it returns normally.  No error is shown exactly when
    both requests resolve or the handler throws. *)
Theorem handleSwitchNetwork_settles w s :
  isLoading (exec (handleSwitchNetwork w) s) = false /\
  currentNetwork (exec (handleSwitchNetwork w) s) = currentNetwork s /\
  ((exists e', completion (handleSwitchNetwork w) s = Threw e') <->
   exists provider,
     ethereum w = Some provider /\
     (provider wallet_requestPermissions = Some nullish \/
      (provider wallet_requestPermissions = None /\
       provider (wallet_switchEthereumChain
                   (or_else (option_map chainId (currentNetwork s)) "0x1"))
         = Some nullish))) /\
  (error (exec (handleSwitchNetwork w) s) = None <->
   exists provider,
     ethereum w = Some provider /\
     (provider wallet_requestPermissions = Some nullish \/
      (provider wallet_requestPermissions = None /\
       (provider (wallet_switchEthereumChain
                    (or_else (option_map chainId (currentNetwork s)) "0x1")) = None \/
        provider (wallet_switchEthereumChain
                    (or_else (option_map chainId (currentNetwork s)) "0x1"))
          = Some nullish)))).
Proof.
  run_handler.
  destruct (ethereum w) as [provider|] eqn:Hw; simpl.
  2:{ split; [reflexivity|]. split; [reflexivity|].
      split; split; try (intros [? [=]]); try discriminate; intros (pr & [=] & _). }
  destruct (provider wallet_requestPermissions) as [[|e]|] eqn:Hp; simpl.
  - split; [reflexivity|]. split; [reflexivity|]. split; split; eauto.
  - destruct (code_is e 4001); simpl;
      (split; [reflexivity|]; split; [reflexivity|];
       split; split; try (intros [? [=]]); try discriminate;
       intros (pr & [= <-] & [Hn|[Hn _]]); congruence).
  - destruct (provider (wallet_switchEthereumChain _)) as [[|e]|] eqn:Hs; simpl.
    + split; [reflexivity|]. split; [reflexivity|]. split; split; eauto 6.
    + destruct (code_is e 4001); simpl;
        (split; [reflexivity|]; split; [reflexivity|];
         split; split; try (intros [? [=]]); try discriminate;
         intros (pr & [= <-] & [Hn|[_ Hn]]); try congruence;
         destruct Hn; congruence).
    + split; [reflexivity|]. split; [reflexivity|].
      split; split; try (intros [? [=]]); eauto 6.
      intros (pr & [= <-] & [Hn|[_ Hn]]); congruence.
Qed.

(** handleSwitchNetwork asks for permission first and sends the switch
    request only if permission was granted; the switch names the chain the
    selector already shows, or 0x1 when it shows none; without an injected
    wallet nothing is sent. *)
Theorem handleSwitchNetwork_requests w s :
  requests (exec (handleSwitchNetwork w) s) =
  requests s ++
  match ethereum w with
  | None => []
  | Some provider =>
      wallet_requestPermissions ::
      match provider wallet_requestPermissions with
      | None => [wallet_switchEthereumChain
                   (or_else (option_map chainId (currentNetwork s)) "0x1")]
      | Some _ => []
      end
  end.
Proof.
  run_handler.
  destruct (ethereum w) as [provider|]; simpl.
  - destruct (provider wallet_requestPermissions) as [[|e]|]; simpl.
    + rewrite !omap_app; simpl; rewrite ?app_nil_r, <- ?app_assoc; reflexivity.
    + destruct (code_is e 4001); simpl; rewrite !omap_app; simpl;
        rewrite ?app_nil_r, <- ?app_assoc; reflexivity.
    + destruct (provider (wallet_switchEthereumChain _)) as [[|e]|]; simpl.
      * rewrite !omap_app; simpl; rewrite ?app_nil_r, <- ?app_assoc; reflexivity.
      * destruct (code_is e 4001); simpl; rewrite !omap_app; simpl;
          rewrite ?app_nil_r, <- ?app_assoc; reflexivity.
      * rewrite !omap_app; simpl; rewrite <- ?app_assoc; reflexivity.
  - rewrite !omap_app. simpl. rewrite !app_nil_r. reflexivity.
Qed.

(** ** handleAddMonadTestnet *)

(** Closes the three parts that hold because the handler returned, and
    leaves the proof that the condition for a throw is not met. *)
Ltac no_throw :=
  split; [reflexivity|];
  split; [reflexivity|];
  split; [split; [intros [? [=]]|] | intros [? [=]]].

(** Whatever the user and the wallet do, handleAddMonadTestnet leaves
    isLoading false and the current network as it was.  It throws in two
    cases only, both after the user confirmed and the wallet rejected the
    add request: the rejection value is undefined or null, so that err.code
    cannot be read, or it has none of the three known codes and no message,
    so that err.message.includes cannot be called; then no error text is
    shown. *)
Theorem handleAddMonadTestnet_settles w s :
  isLoading (exec (handleAddMonadTestnet w) s) = false /\
  currentNetwork (exec (handleAddMonadTestnet w) s) = currentNetwork s /\
  ((exists e', completion (handleAddMonadTestnet w) s = Threw e') <->
   (confirm w = true /\
    exists provider,
      ethereum w = Some provider /\
      (provider add_monad_testnet = Some nullish \/
       exists e : JsError,
         provider add_monad_testnet = Some (object e) /\
         unknown_code e = true /\ message e = None))) /\
  ((exists e', completion (handleAddMonadTestnet w) s = Threw e') ->
   error (exec (handleAddMonadTestnet w) s) = None).
Proof.
  unfold unknown_code. run_handler.
  destruct (confirm w) eqn:Hc; simpl.
  2:{ no_throw. intros [[=] _]. }
  destruct (ethereum w) as [provider|] eqn:Hw; simpl.
  2:{ no_throw. intros (_ & pr & [=] & _). }
  destruct (provider add_monad_testnet) as [[|e]|] eqn:Ha; simpl.
  3:{ destruct (provider (wallet_switchEthereumChain "0x279F")); simpl;
        no_throw; intros (_ & pr & [= <-] & [Ha'|(e & Ha' & _)]); congruence. }
  { split; [reflexivity|]. split; [reflexivity|]. split; [|reflexivity].
    split; [intros _|intros _; eexists; reflexivity].
    split; [reflexivity|]. exists provider. split; [reflexivity|]. left. exact Ha. }
  assert (Hinv : forall pr, Some provider = Some pr ->
            (pr add_monad_testnet = Some nullish \/
             exists e0 : JsError,
               pr add_monad_testnet = Some (object e0) /\
               negb (code_is e0 4001) && negb (code_is e0 (-32602)) &&
               negb (code_is e0 (-32603)) = true /\ message e0 = None) ->
            negb (code_is e 4001) && negb (code_is e (-32602)) &&
            negb (code_is e (-32603)) = true /\ message e = None).
  { intros pr [= <-] [Hn|(e0 & He0 & Hu & Hm)]; [congruence|].
    rewrite Ha in He0. injection He0 as <-. auto. }
  destruct (code_is e 4001) eqn:C1; simpl.
  { no_throw. intros (_ & pr & Hpr & H). destruct (Hinv pr Hpr H) as [Hu _].
    discriminate. }
  destruct (code_is e (-32602)) eqn:C2; simpl.
  { no_throw. intros (_ & pr & Hpr & H). destruct (Hinv pr Hpr H) as [Hu _].
    discriminate. }
  destruct (code_is e (-32603)) eqn:C3; simpl.
  { no_throw. intros (_ & pr & Hpr & H). destruct (Hinv pr Hpr H) as [Hu _].
    discriminate. }
  destruct (message e) as [m|] eqn:Hm; simpl.
  { no_throw. intros (_ & pr & Hpr & H). destruct (Hinv pr Hpr H) as [_ Hm'].
    discriminate. }
  split; [reflexivity|]. split; [reflexivity|]. split; [|reflexivity].
  split; [intros _|intros _; eexists; reflexivity].
  split; [reflexivity|]. exists provider. split; [reflexivity|]. right.
  exists e. rewrite C1, C2, C3. auto.
Qed.

(** handleAddMonadTestnet sends nothing unless the user confirmed and a
    wallet is injected; then it sends the add request, and the switch to
    0x279F only after the add request resolved. *)
Theorem handleAddMonadTestnet_requests w s :
  requests (exec (handleAddMonadTestnet w) s) =
  requests s ++
  match confirm w, ethereum w with
  | true, Some provider =>
      add_monad_testnet ::
      match provider add_monad_testnet with
      | None => [wallet_switchEthereumChain "0x279F"]
      | Some _ => []
      end
  | _, _ => []
  end.
Proof.
  run_handler.
  destruct (confirm w); simpl.
  2:{ rewrite !omap_app. simpl. rewrite app_nil_r. reflexivity. }
  destruct (ethereum w) as [provider|]; simpl.
  2:{ rewrite !omap_app. simpl. rewrite !app_nil_r. reflexivity. }
  destruct (provider add_monad_testnet) as [[|e]|]; simpl.
  3:{ destruct (provider (wallet_switchEthereumChain "0x279F")); simpl;
        rewrite !omap_app; simpl; rewrite ?app_nil_r, <- ?app_assoc; reflexivity. }
  { rewrite !omap_app; simpl; rewrite ?app_nil_r, <- ?app_assoc; reflexivity. }
  destruct (code_is e 4001); simpl;
    [rewrite !omap_app; simpl; rewrite ?app_nil_r, <- ?app_assoc; reflexivity|].
  destruct (code_is e (-32602)); simpl;
    [rewrite !omap_app; simpl; rewrite ?app_nil_r, <- ?app_assoc; reflexivity|].
  destruct (code_is e (-32603)); simpl;
    [rewrite !omap_app; simpl; rewrite ?app_nil_r, <- ?app_assoc; reflexivity|].
  destruct (message e); simpl;
    rewrite !omap_app; simpl; rewrite ?app_nil_r, <- ?app_assoc; reflexivity.
Qed.

(** Without an injected wallet neither handler crashes: the switch shows
    "Failed to switch network", and the add, once confirmed, shows "Failed
    to add network" with the usual advice. *)
Theorem handlers_without_wallet w s :
  ethereum w = None ->
  error (exec (handleSwitchNetwork w) s) = Some "Failed to switch network" /\
  completion (handleSwitchNetwork w) s = Returned tt /\
  completion (handleAddMonadTestnet w) s = Returned tt /\
  error (exec (handleAddMonadTestnet w) s) =
    if confirm w
    then Some "Failed to add network. Please check the network details and try again."
    else None.
Proof.
  intros Hw. run_handler. rewrite Hw. simpl.
  destruct (confirm w); simpl; rewrite ?Hw; simpl; auto.
Qed.

Lemma handlers_without_wallet_witness :
  error (exec (handleSwitchNetwork {| ethereum := None; confirm := true |}) failed_before)
    = Some "Failed to switch network" /\
  error (exec (handleAddMonadTestnet {| ethereum := None; confirm := true |}) failed_before)
    = Some "Failed to add network. Please check the network details and try again.".
Proof.
  destruct (handlers_without_wallet {| ethereum := None; confirm := true |} failed_before
              eq_refl) as (H1 & _ & _ & H2).
  split; [exact H1|exact H2].
Defined.

(** A wallet that rejects with undefined makes both handlers throw from
    inside their catch block, and an add request rejected with an object
    that has neither code nor message does the same at err.message. *)
Lemma rejections_that_escape :
  completion (handleSwitchNetwork rejects_with_undefined) failed_before
    = Threw (object (TypeError "code")) /\
  error (exec (handleSwitchNetwork rejects_with_undefined) failed_before) = None /\
  completion (handleAddMonadTestnet rejects_with_undefined) failed_before
    = Threw (object (TypeError "code")) /\
  completion (handleAddMonadTestnet (rejects_add bare)) failed_before
    = Threw (object (TypeError "includes")).
Proof. repeat split; reflexivity. Qed.

(** ** The effect: init, chain changes and cleanup *)

Lemma exec_updateCurrentNetwork id s :
  exec (updateCurrentNetwork id) s =
  {| currentNetwork := Some {| chainId := id; chainName := getNetworkName id |};
     isLoading := isLoading s; error := None;
     calls := calls s ++ [CallOnChange id] |}.
Proof. reflexivity. Qed.

Lemma run_cons e es m : run (e :: es) m = run es (step e m).
Proof. reflexivity. Qed.

(** Once init has settled without attaching the listener, no event changes
    the selector any more. *)
Lemma deaf_run es : forall m,
  stage m = Settled -> listening m = false ->
  selector (run es m) = selector m /\ listening (run es m) = false.
Proof.
  induction es as [|e es IH]; intros m Hs Hl; [auto|].
  rewrite run_cons.
  assert (H : selector (step e m) = selector m /\ stage (step e m) = Settled /\
              listening (step e m) = false).
  { destruct m as [sel st li al]. simpl in *. subst.
    destruct e as [[e|]|[id|e]|id|[|]]; simpl; auto; destruct al; simpl; auto. }
  destruct H as (H1 & H2 & H3).
  destruct (IH (step e m) H2 H3) as [I1 I2]. rewrite I1, H1. auto.
Qed.

(** Neither button handler touches the network shown, and neither calls
    the parent's onChange. *)
Lemma handlers_keep_network w s :
  (currentNetwork (exec (handleSwitchNetwork w) s) = currentNetwork s /\
   onChange_calls (exec (handleSwitchNetwork w) s) = onChange_calls s) /\
  (currentNetwork (exec (handleAddMonadTestnet w) s) = currentNetwork s /\
   onChange_calls (exec (handleAddMonadTestnet w) s) = onChange_calls s).
Proof.
  unfold onChange_calls. run_handler. split.
  - destruct (ethereum w) as [provider|]; simpl.
    + destruct (provider wallet_requestPermissions) as [[|e]|]; simpl;
        [|destruct (code_is e 4001)|
         destruct (provider (wallet_switchEthereumChain _)) as [[|e]|];
           [|destruct (code_is e 4001)|]];
        simpl; rewrite !omap_app; simpl; rewrite ?app_nil_r; auto.
    + rewrite !omap_app. simpl. rewrite ?app_nil_r. auto.
  - destruct (confirm w); simpl;
      [|rewrite !omap_app; simpl; rewrite ?app_nil_r; auto].
    destruct (ethereum w) as [provider|]; simpl;
      [|rewrite !omap_app; simpl; rewrite ?app_nil_r; auto].
    destruct (provider add_monad_testnet) as [[|e]|]; simpl.
    + rewrite !omap_app; simpl; rewrite ?app_nil_r; auto.
    + destruct (code_is e 4001); simpl;
        [rewrite !omap_app; simpl; rewrite ?app_nil_r; auto|].
      destruct (code_is e (-32602)); simpl;
        [rewrite !omap_app; simpl; rewrite ?app_nil_r; auto|].
      destruct (code_is e (-32603)); simpl;
        [rewrite !omap_app; simpl; rewrite ?app_nil_r; auto|].
      destruct (message e); simpl; rewrite !omap_app; simpl; rewrite ?app_nil_r; auto.
    + destruct (provider (wallet_switchEthereumChain "0x279F")); simpl;
        rewrite !omap_app; simpl; rewrite ?app_nil_r; auto.
Qed.

Lemma act_cons a acts m : act_all (a :: acts) m = act_all acts (act a m).
Proof. reflexivity. Qed.

Lemma deaf_act a m :
  stage m = Settled -> listening m = false ->
  stage (act a m) = Settled /\ listening (act a m) = false /\
  currentNetwork (selector (act a m)) = currentNetwork (selector m) /\
  onChange_calls (selector (act a m)) = onChange_calls (selector m).
Proof.
  intros Hs Hl. destruct a as [e|w|w]; simpl.
  - assert (H : selector (step e m) = selector m /\ stage (step e m) = Settled /\
                listening (step e m) = false).
    { destruct m as [sel st li al]. simpl in *. subst.
      destruct e as [[e|]|[id|e]|id|[|]]; simpl; auto; destruct al; simpl; auto. }
    destruct H as (-> & -> & ->). auto.
  - destruct (alive m && negb (isLoading (selector m))); simpl; auto.
    destruct (handlers_keep_network w (selector m)) as [[H1 H2] _]. auto.
  - destruct (alive m); simpl; auto.
    destruct (handlers_keep_network w (selector m)) as [_ [H1 H2]]. auto.
Qed.

Lemma deaf_acts acts : forall m,
  stage m = Settled -> listening m = false ->
  listening (act_all acts m) = false /\
  currentNetwork (selector (act_all acts m)) = currentNetwork (selector m) /\
  onChange_calls (selector (act_all acts m)) = onChange_calls (selector m).
Proof.
  induction acts as [|a acts IH]; intros m Hs Hl; [auto|].
  rewrite act_cons.
  destruct (deaf_act a m Hs Hl) as (Hs' & Hl' & Hn & Hc).
  destruct (IH _ Hs' Hl') as (I1 & I2 & I3). rewrite I2, I3. auto.
Qed.

(** When init fails, without a wallet or because either of its two requests
    is rejected, the selector shows the message of the failure and the
    listener is never attached.  For the rest of that run of the effect,
    whatever settles, whatever chain the wallet announces and whichever
    buttons the user clicks, the network shown stays what it was and
    onChange is never called; the buttons only rewrite the error text. *)
Theorem init_failure_is_final s (e : JsError) acts :
  (selector (effect false s) =
     {| currentNetwork := currentNetwork s; isLoading := isLoading s;
        error := Some "MetaMask not detected"; calls := calls s |} /\
   listening (act_all acts (effect false s)) = false /\
   currentNetwork (selector (act_all acts (effect false s))) = currentNetwork s /\
   onChange_calls (selector (act_all acts (effect false s))) = onChange_calls s) /\
  (selector (step (AccountsSettle (Some e)) (effect true s)) =
     {| currentNetwork := currentNetwork s; isLoading := false;
        error := Some "Failed to connect to MetaMask";
        calls := calls s ++ [CallRequest eth_requestAccounts] |} /\
   listening (act_all acts (step (AccountsSettle (Some e)) (effect true s))) = false /\
   currentNetwork (selector (act_all acts (step (AccountsSettle (Some e)) (effect true s))))
     = currentNetwork s /\
   onChange_calls (selector (act_all acts (step (AccountsSettle (Some e)) (effect true s))))
     = onChange_calls s) /\
  (selector (run [AccountsSettle None; ChainIdSettles (inr e)] (effect true s)) =
     {| currentNetwork := currentNetwork s; isLoading := false;
        error := Some "Failed to connect to MetaMask";
        calls := calls s ++ [CallRequest eth_requestAccounts; CallRequest eth_chainId] |} /\
   listening (act_all acts (run [AccountsSettle None; ChainIdSettles (inr e)]
                                (effect true s))) = false /\
   currentNetwork (selector (act_all acts (run [AccountsSettle None; ChainIdSettles (inr e)]
                                               (effect true s))))
     = currentNetwork s /\
   onChange_calls (selector (act_all acts (run [AccountsSettle None; ChainIdSettles (inr e)]
                                               (effect true s))))
     = onChange_calls s).
Proof.
  split; [|split].
  - split; [reflexivity|].
    destruct (deaf_acts acts (effect false s) eq_refl eq_refl) as (H1 & H2 & H3).
    rewrite H1, H2, H3. auto.
  - split; [reflexivity|].
    destruct (deaf_acts acts (step (AccountsSettle (Some e)) (effect true s))
                eq_refl eq_refl) as (H1 & H2 & H3).
    rewrite H1, H2, H3. unfold onChange_calls. simpl. rewrite omap_app. simpl.
    rewrite app_nil_r. auto.
  - split.
    { simpl. unfold commit, exec; simpl. rewrite <- app_assoc. reflexivity. }
    destruct (deaf_acts acts (run [AccountsSettle None; ChainIdSettles (inr e)] (effect true s))
                eq_refl eq_refl) as (H1 & H2 & H3).
    rewrite H1, H2, H3. unfold onChange_calls. simpl. unfold commit, exec. simpl.
    rewrite !omap_app. simpl. rewrite !app_nil_r. auto.
Qed.

(** After a failed init a click still rewrites the error text: here the
    missing wallet is reported as a failed switch. *)
Lemma click_after_failed_init :
  error (selector (effect false initial)) = Some "MetaMask not detected" /\
  error (selector (act_all [ClickSwitchNetwork {| ethereum := None; confirm := true |}]
                           (effect false initial)))
    = Some "Failed to switch network".
Proof. split; reflexivity. Qed.

Lemma onChange_calls_app s cs :
  omap (fun c => match c with CallOnChange v => Some v | _ => None end) (calls s ++ cs)
  = onChange_calls s ++ omap (fun c => match c with CallOnChange v => Some v | _ => None end) cs.
Proof. apply omap_app. Qed.

Lemma synced_step e m :
  (named (selector m) /\ (alive m = true -> in_sync (selector m))) ->
  named (selector (step e m)) /\ (alive (step e m) = true -> in_sync (selector (step e m))).
Proof.
  destruct m as [sel st li al]. unfold in_sync, onChange_calls. simpl.
  intros [Hn Hs].
  destruct e as [[e|]|[id|e]|id|[|]], st; simpl; auto;
    try (destruct li; simpl; auto);
    destruct al; simpl; auto; try (split; [exact Hn|discriminate]);
    unfold commit, exec, named; simpl;
    rewrite ?onChange_calls_app; simpl; rewrite ?app_nil_r, ?last_snoc; auto.
Qed.

(** While the component is mounted, the chain the selector shows is the last
    one it passed to onChange, from the first render on and through any
    sequence of settlements and chain changes; and the name it shows is
    always the one getNetworkName gives for that chain id. *)
Theorem selector_in_sync provider es :
  named (selector (run es (effect provider initial))) /\
  (alive (run es (effect provider initial)) = true ->
   in_sync (selector (run es (effect provider initial)))).
Proof.
  assert (H0 : named (selector (effect provider initial)) /\
               (alive (effect provider initial) = true ->
                in_sync (selector (effect provider initial)))).
  { destruct provider; split; reflexivity. }
  revert H0. generalize (effect provider initial).
  induction es as [|e es IH]; intros m Hm; [exact Hm|].
  rewrite run_cons. apply IH, synced_step, Hm.
Qed.

Lemma selector_in_sync_witness :
  in_sync (selector (run [AccountsSettle None; ChainIdSettles (inl "0x1"); ChainChanged "0x89"]
                         (effect true initial))).
Proof.
  exact (proj2 (selector_in_sync true
                  [AccountsSettle None; ChainIdSettles (inl "0x1"); ChainChanged "0x89"])
               eq_refl).
Defined.

Lemma leaked_run es : forall m,
  alive m = false -> stage m = Settled -> listening m = true ->
  alive (run es m) = false /\ stage (run es m) = Settled /\ listening (run es m) = true.
Proof.
  induction es as [|e es IH]; intros m Ha Hs Hl; [auto|].
  rewrite run_cons. apply IH;
    destruct m as [sel st li al]; simpl in *; subst;
    destruct e as [[e|]|[id|e]|id|[|]]; reflexivity.
Qed.

(** The cleanup detaches the chain listener for good when init has
    settled before the unmount.  When the component unmounts while init is
    still waiting for the chain id, the listener is attached afterwards and
    no later event removes it: every later chain change still reaches the
    parent's onChange. *)
Theorem listener_after_unmount :
  (forall m es,
     alive m = true -> stage m = Settled ->
     listening (run (Unmount true :: es) m) = false) /\
  (forall m id es id',
     alive m = false -> stage m = AwaitingChainId ->
     listening (run (ChainIdSettles (inl id) :: es) m) = true /\
     onChange_calls (selector (step (ChainChanged id')
                                    (run (ChainIdSettles (inl id) :: es) m)))
     = onChange_calls (selector (run (ChainIdSettles (inl id) :: es) m)) ++ [id']).
Proof.
  split.
  - intros m es Ha Hs. rewrite run_cons.
    apply deaf_run; destruct m as [sel st li al]; simpl in *; subst; reflexivity.
  - intros m id es id' Ha Hs. rewrite run_cons.
    destruct (leaked_run es (step (ChainIdSettles (inl id)) m)) as (Ra & Rs & Rl);
      try (destruct m as [sel st li al]; simpl in *; subst; reflexivity).
    split; [exact Rl|].
    destruct (run es (step (ChainIdSettles (inl id)) m)) as [sel st li al].
    simpl in *. subst. simpl. unfold commit, exec, onChange_calls. simpl.
    rewrite omap_app. reflexivity.
Qed.

Lemma listener_after_unmount_witness :
  listening (run [Unmount true]
                 (run [AccountsSettle None; ChainIdSettles (inl "0x1")] (effect true initial)))
    = false /\
  listening (run [ChainIdSettles (inl "0x1")]
                 (run [AccountsSettle None; Unmount true] (effect true initial)))
    = true.
Proof.
  destruct listener_after_unmount as [Hclean Hleak]. split.
  - exact (Hclean (run [AccountsSettle None; ChainIdSettles (inl "0x1")] (effect true initial))
                  [] eq_refl eq_refl).
  - exact (proj1 (Hleak (run [AccountsSettle None; Unmount true] (effect true initial))
                        "0x1" [] "0x89" eq_refl eq_refl)).
Defined.

(** ** getNetworkName *)

Ltac each_unit c := destruct c as [[] [] [] [] [] [] [] []].

Lemma lower_unit_idem c : lower_unit (lower_unit c) = lower_unit c.
Proof. each_unit c; reflexivity. Qed.

Lemma hex_digit_lower c : hex_digit (lower_unit c) = hex_digit c.
Proof. each_unit c; reflexivity. Qed.

Lemma is_white_space_lower c : is_white_space (lower_unit c) = is_white_space c.
Proof. each_unit c; reflexivity. Qed.

Lemma toLowerCase_idem s : toLowerCase (toLowerCase s) = toLowerCase s.
Proof.
  induction s as [|c r IH]; [reflexivity|].
  simpl. rewrite lower_unit_idem, IH. reflexivity.
Qed.

Lemma trim_start_lower s : trim_start (toLowerCase s) = toLowerCase (trim_start s).
Proof.
  induction s as [|c r IH]; [reflexivity|].
  simpl. rewrite is_white_space_lower.
  destruct (is_white_space c); [exact IH|reflexivity].
Qed.

Lemma strip_sign_lower s :
  strip_sign (toLowerCase s) = (fst (strip_sign s), toLowerCase (snd (strip_sign s))).
Proof. destruct s as [|c r]; [reflexivity|]. each_unit c; reflexivity. Qed.

Lemma strip_0x_lower s : strip_0x (toLowerCase s) = toLowerCase (strip_0x s).
Proof.
  destruct s as [|c r]; [reflexivity|].
  destruct r as [|d r]; [each_unit c; reflexivity|].
  each_unit c; try reflexivity.
  each_unit d; reflexivity.
Qed.

Lemma hex_value_lower s : forall acc, hex_value (toLowerCase s) acc = hex_value s acc.
Proof.
  induction s as [|c r IH]; intros acc; [reflexivity|].
  simpl. rewrite hex_digit_lower. destruct (hex_digit c); [apply IH|reflexivity].
Qed.

Lemma parseInt16_lower s : parseInt16 (toLowerCase s) = parseInt16 s.
Proof.
  unfold parseInt16. rewrite trim_start_lower, strip_sign_lower.
  destruct (strip_sign (trim_start s)) as [negative s1]. cbn [fst snd].
  rewrite strip_0x_lower. destruct (strip_0x s1) as [|c r] eqn:E; [reflexivity|].
  cbn [toLowerCase]. rewrite hex_digit_lower.
  destruct (hex_digit c); [|reflexivity].
  change (String (lower_unit c) (toLowerCase r)) with (toLowerCase (String c r)).
  rewrite hex_value_lower. reflexivity.
Qed.

(** getNetworkName does not see the case of letters at all: two chain ids
    that differ only in case get the same answer, also when they are not in
    the table. *)
Theorem getNetworkName_ignores_case s t :
  toLowerCase s = toLowerCase t -> getNetworkName s = getNetworkName t.
Proof.
  intros H. unfold getNetworkName.
  rewrite <- (parseInt16_lower s), <- (parseInt16_lower t), H. reflexivity.
Qed.

Lemma getNetworkName_ignores_case_witness :
  getNetworkName "0XA4B1" = getNetworkName "0xa4b1" /\
  getNetworkName "0X2A" = getNetworkName "0x2a".
Proof.
  split; apply getNetworkName_ignores_case; reflexivity.
Defined.

(** *** Chain numbers *)

Lemma of_uint_acc_lower d : forall acc,
  Z.pos acc * 10 ^ Z.of_nat (Decimal.nb_digits d) <= Z.pos (Pos.of_uint_acc d acc).
Proof.
  induction d as [|d IH|d IH|d IH|d IH|d IH|d IH|d IH|d IH|d IH|d IH]; intros acc;
    [simpl; lia|..];
    cbn [Pos.of_uint_acc Decimal.nb_digits];
    rewrite Nat2Z.inj_succ, Z.pow_succ_r by lia;
    (eapply Z.le_trans; [|apply IH]);
    rewrite ?Pos2Z.inj_add, Pos2Z.inj_mul;
    assert (0 < 10 ^ Z.of_nat (Decimal.nb_digits d)) by (apply Z.pow_pos_nonneg; lia);
    nia.
Qed.

Lemma of_uint_lower d :
  d <> Decimal.Nil -> Decimal.nzhead d = d ->
  10 ^ (Z.of_nat (Decimal.nb_digits d) - 1) <= Z.of_N (N.of_uint d).
Proof.
  intros Hn Hz.
  assert (Hacc : forall r k,
            10 ^ (Z.of_nat (Decimal.nb_digits r)) <= Z.pos (Pos.of_uint_acc r k)).
  { intros r k. eapply Z.le_trans; [|apply of_uint_acc_lower].
    assert (0 < 10 ^ Z.of_nat (Decimal.nb_digits r)) by (apply Z.pow_pos_nonneg; lia).
    nia. }
  destruct d as [|d|d|d|d|d|d|d|d|d|d]; [congruence| |..];
    try (cbn [Decimal.nb_digits]; rewrite Nat2Z.inj_succ;
         replace (Z.succ (Z.of_nat (Decimal.nb_digits d)) - 1)
           with (Z.of_nat (Decimal.nb_digits d)) by lia;
         apply Hacc).
  pose proof (nb_digits_nzhead d) as H. simpl in Hz. rewrite Hz in H. simpl in H. lia.
Qed.

Lemma to_uint_normal n :
  n <> 0%N -> N.to_uint n <> Decimal.Nil /\ Decimal.nzhead (N.to_uint n) = N.to_uint n.
Proof.
  intros Hn.
  pose proof (DecimalN.Unsigned.to_of (N.to_uint n)) as H.
  rewrite DecimalN.Unsigned.of_to in H.
  unfold Decimal.unorm in H.
  destruct (Decimal.nzhead (N.to_uint n)) eqn:E;
    try (split; [rewrite H; discriminate|symmetry; exact H]).
  exfalso. apply Hn. rewrite <- (DecimalN.Unsigned.of_to n), H. reflexivity.
Qed.

Lemma length_string_of_uint d :
  String.length (NilEmpty.string_of_uint d) = Decimal.nb_digits d.
Proof. induction d; simpl; congruence. Qed.

Lemma digits_bound x : 0 < x -> 10 ^ (digits x - 1) <= x.
Proof.
  intros Hx. unfold digits, decimal.
  destruct (to_uint_normal (Z.to_N x)) as [Hn Hz]; [lia|].
  pose proof (of_uint_lower _ Hn Hz) as H.
  rewrite DecimalN.Unsigned.of_to, Z2N.id in H by lia.
  unfold NilZero.string_of_uint.
  destruct (N.to_uint (Z.to_N x)) eqn:E; try congruence;
    rewrite length_string_of_uint; exact H.
Qed.

Lemma digits_small x : 0 < x < 2 ^ 53 -> digits x <= 21.
Proof.
  intros Hx. pose proof (digits_bound x ltac:(lia)) as H.
  destruct (Z_le_gt_dec (digits x) 21) as [|Hgt]; [assumption|exfalso].
  assert (10 ^ 21 <= 10 ^ (digits x - 1)) by (apply Z.pow_le_mono_r; lia).
  assert (2 ^ 53 < 10 ^ 21) by reflexivity. lia.
Qed.

Lemma to_double_large v :
  2 ^ 53 <= v ->
  match to_double false v with
  | Finite _ y => 2 ^ 53 <= y
  | Infinity _ => True
  | NaN => False
  end.
Proof.
  intros Hv. unfold to_double.
  destruct (v <? 2 ^ 53) eqn:E; [apply Z.ltb_lt in E; lia|].
  set (e := Z.log2 v - 52).
  assert (Hlog : 53 <= Z.log2 v).
  { change 53 with (Z.log2 (2 ^ 53)). apply Z.log2_le_mono. exact Hv. }
  assert (He : 1 <= e) by (unfold e; lia).
  assert (Hpe : 2 <= 2 ^ e).
  { change 2 with (2 ^ 1) at 1. apply Z.pow_le_mono_r; lia. }
  assert (Hq : 2 ^ 52 <= v / 2 ^ e).
  { apply Z.div_le_lower_bound; [lia|].
    rewrite Z.mul_comm, <- Z.pow_add_r by lia.
    replace (52 + e) with (Z.log2 v) by (unfold e; lia).
    apply Z.log2_spec. lia. }
  set (q := v / 2 ^ e) in *.
  destruct ((2 ^ (e - 1) <? v mod 2 ^ e) || ((v mod 2 ^ e =? 2 ^ (e - 1)) && Z.odd q));
    match goal with |- context [2 ^ 1024 <=? ?t] => destruct (2 ^ 1024 <=? t) end;
    try exact I;
    (assert (H53 : 2 ^ 53 = 2 ^ 52 * 2) by reflexivity; rewrite H53; nia).
Qed.

Lemma is_double_small x v : is_double x v = true -> x < 2 ^ 53 -> v = x.
Proof.
  unfold is_double. intros H Hx.
  destruct (Z_lt_le_dec v (2 ^ 53)) as [Hv|Hv].
  - unfold to_double in H. apply Z.ltb_lt in Hv. rewrite Hv in H.
    apply Z.eqb_eq in H. exact H.
  - pose proof (to_double_large v Hv) as L.
    destruct (to_double false v); try discriminate.
    apply Z.eqb_eq in H. lia.
Qed.

Lemma nearest_with_small k x v : nearest_with k x = Some v -> x < 2 ^ 53 -> v = x.
Proof.
  unfold nearest_with. intros H Hx.
  set (p := 10 ^ Z.max 0 (digits x - k)) in *.
  destruct (is_double x (x / p * p)) eqn:Elo; destruct (is_double x (x / p * p + p)) eqn:Ehi;
    try discriminate.
  - destruct ((x - x / p * p <? x / p * p + p - x) ||
              ((x - x / p * p =? x / p * p + p - x) && Z.even (x / p * p / p)));
      injection H as <-; eapply is_double_small; eassumption.
  - injection H as <-. eapply is_double_small; eassumption.
  - injection H as <-. eapply is_double_small; eassumption.
Qed.

Lemma shortest_small fuel : forall k x, x < 2 ^ 53 -> shortest fuel k x = x.
Proof.
  induction fuel as [|fuel IH]; intros k x Hx; [reflexivity|].
  simpl. destruct (nearest_with k x) as [v|] eqn:E.
  - eapply nearest_with_small; eassumption.
  - apply IH, Hx.
Qed.

(** A whole number below 2^53 is printed digit by digit. *)
Lemma number_to_string_small x :
  0 <= x < 2 ^ 53 -> number_to_string (to_double false x) = decimal x.
Proof.
  intros Hx. unfold to_double.
  destruct (x <? 2 ^ 53) eqn:E; [|apply Z.ltb_ge in E; lia].
  unfold number_to_string. destruct (x =? 0) eqn:E0.
  - apply Z.eqb_eq in E0. subst. reflexivity.
  - apply Z.eqb_neq in E0. unfold positive_to_string.
    rewrite shortest_small by lia.
    pose proof (digits_small x ltac:(lia)) as Hd.
    apply Z.leb_le in Hd. rewrite Hd. reflexivity.
Qed.

Lemma hex_digit_range c d : hex_digit c = Some d -> 0 <= d < 16.
Proof. each_unit c; vm_compute; intros [= <-]; split; discriminate || reflexivity. Qed.

Lemma hex_value_nonneg s : forall acc, 0 <= acc -> 0 <= hex_value s acc.
Proof.
  induction s as [|c r IH]; intros acc Hacc; [exact Hacc|].
  simpl. destruct (hex_digit c) as [d|] eqn:E; [|exact Hacc].
  apply hex_digit_range in E. apply IH. lia.
Qed.

Lemma parseInt16_0x c r :
  parseInt16 (String "0" (String "x" (String c r))) =
  match hex_digit c with
  | Some _ => to_double false (hex_value (String c r) 0)
  | None => NaN
  end.
Proof. reflexivity. Qed.

(** A chain id 0x followed by hexadecimal digits that is not in the table
    is named by its chain number, written in decimal without loss, as long
    as the number is below 2^53. *)
Theorem getNetworkName_chain_number s :
  s <> "" -> all_hex s = true -> hex_value s 0 < 2 ^ 53 ->
  networkNames !! toLowerCase (String "0" (String "x" s)) = None ->
  getNetworkName (String "0" (String "x" s)) = Str ("Chain " +:+ decimal (hex_value s 0)).
Proof.
  intros Hs Hh Hv Hk.
  unfold getNetworkName, get_property. rewrite Hk.
  change (existsb (String.eqb (toLowerCase (String "0" (String "x" s)))) object_prototype)
    with false.
  cbn [or_value]. f_equal. f_equal.
  destruct s as [|c r]; [congruence|].
  rewrite parseInt16_0x.
  simpl in Hh. destruct (hex_digit c) eqn:Ec; [|discriminate].
  apply number_to_string_small. split; [apply hex_value_nonneg; lia|exact Hv].
Qed.

Lemma getNetworkName_chain_number_witness :
  getNetworkName "0x38" = Str ("Chain " +:+ decimal (hex_value "38" 0)) /\
  decimal (hex_value "38" 0) = "56".
Proof.
  split; [|reflexivity].
  apply (getNetworkName_chain_number "38"); [discriminate|reflexivity|reflexivity|].
  vm_compute. reflexivity.
Defined.

End SelectorExtra.

(** * Further properties of the verification panel *)
Module PanelExtra.
Import Js Hook ScreenpipeVerificationPanel Examples.

(** ** The two tabs *)

Lemma filter_lengths {A} (f g : A -> bool) (l : list A) :
  (forall x, f x = true -> g x = true -> False) ->
  (length (List.filter f l) + length (List.filter g l) <= length l)%nat.
Proof.
  intros H. induction l as [|x l IH]; [simpl; lia|].
  simpl. destruct (f x) eqn:Ef, (g x) eqn:Eg; simpl; try lia.
  exfalso. eauto.
Qed.

(** No achievement is listed in both tabs, so the two counts add up to at
    most the number of achievements; a rejected achievement and a pending
    one that is not completed are listed in neither tab, while a verified
    one is listed as verified whether or not it is completed. *)
Theorem tabs_partition p :
  (forall a, In a (pendingAchievements p) -> ~ In a (verifiedAchievements p)) /\
  (length (pendingAchievements p) + length (verifiedAchievements p)
   <= length (achievements p))%nat /\
  (forall a, verificationStatus a = rejected \/
             (verificationStatus a = pending /\ completed a = false) ->
             ~ In a (pendingAchievements p) /\ ~ In a (verifiedAchievements p)) /\
  (forall a, In a (achievements p) -> verificationStatus a = verified ->
             In a (verifiedAchievements p)).
Proof.
  unfold pendingAchievements, verifiedAchievements, is_pending.
  split; [|split; [|split]].
  - intros a H1 H2. apply filter_In in H1 as [_ H1]. apply filter_In in H2 as [_ H2].
    apply andb_true_iff in H1 as [_ H1]. destruct (verificationStatus a); discriminate.
  - apply filter_lengths. intros a H1 H2.
    apply andb_true_iff in H1 as [_ H1]. destruct (verificationStatus a); discriminate.
  - intros a H. split; intros Hin; apply filter_In in Hin as [_ Hin];
      destruct H as [H|[H1 H2]]; rewrite ?H, ?H1, ?H2 in Hin;
      try discriminate; rewrite ?andb_false_r in Hin; discriminate.
  - intros a Hin Hv. apply filter_In. split; [exact Hin|]. rewrite Hv. reflexivity.
Qed.

Lemma tabs_partition_witness :
  ~ In a3 (pendingAchievements props0) /\ ~ In a3 (verifiedAchievements props0).
Proof.
  apply (proj1 (proj2 (proj2 (tabs_partition props0)))). right. split; reflexivity.
Defined.

(** The card and the panel offer the same achievements for verification:
    an achievement of the panel is in its Pending tab, with a wallet
    connected, exactly when its own card renders the verify button. *)
Theorem same_eligibility p a cb :
  In a (achievements p) ->
  (In a (pendingAchievements p) /\ truthy (walletAddress p) = true <->
   AchievementCard.button_rendered
     (AchievementCard.mount
        {| AchievementCard.achievement := a;
           AchievementCard.walletAddress := walletAddress p;
           AchievementCard.onVerificationComplete := cb |}) = true).
Proof.
  intros Hin. unfold AchievementCard.button_rendered, pendingAchievements. simpl.
  rewrite filter_In, !andb_true_iff. tauto.
Qed.

Lemma same_eligibility_witness :
  AchievementCard.button_rendered card1 = true.
Proof.
  exact (proj1 (same_eligibility props0 a1 true (or_introl eq_refl))
               (conj (or_introl eq_refl) eq_refl)).
Defined.

(** ** Starting a verification *)

(** The Verify button does nothing unless the status is connected, but the
    Try Again button of a failed result is not tied to the connection: it
    starts a new verify call whatever the connection status is. *)
Theorem try_again_ignores_connection s a r c w :
  selectedAchievement s = Some a ->
  lastVerificationResult s = Some r -> success r = false ->
  walletAddress (props s) = Some (String c w) ->
  Hook.verifying (hook s) = false ->
  verify_calls (calls (step ClickTryAgain s)) = verify_calls (calls s) ++ [(a, String c w)] /\
  (connectionStatus s <> connected -> step ClickVerify s = s).
Proof.
  intros Ha Hr Hs Hw Hv. split.
  - simpl. unfold try_again_rendered, try_again_disabled, start_verification,
      verifySelectedAchievement_begin.
    rewrite Hr, Ha, Hs, Hv, Hw. simpl.
    rewrite PanelProofs.verify_calls_app. reflexivity.
  - intros Hc. simpl. unfold verify_button_rendered. rewrite Ha.
    destruct (connectionStatus s); try reflexivity. congruence.
Qed.

Lemma try_again_ignores_connection_witness :
  connectionStatus (run [ClickVerify; VerifySettles 0 (Resolved false);
                         ClickRefresh; FetchSettles 0 false] ready) = disconnected /\
  verify_calls (calls (step ClickTryAgain
                         (run [ClickVerify; VerifySettles 0 (Resolved false);
                               ClickRefresh; FetchSettles 0 false] ready)))
  = [(a1, "0xABC"); (a1, "0xABC")].
Proof.
  split; [reflexivity|].
  exact (proj1 (try_again_ignores_connection
                  (run [ClickVerify; VerifySettles 0 (Resolved false);
                        ClickRefresh; FetchSettles 0 false] ready)
                  a1 _ "0" "xABC" eq_refl eq_refl eq_refl eq_refl eq_refl)).
Defined.

(** A successful verification changes nothing the panel decides on: the
    achievement is still selected and still in the Pending tab until the
    parent hands in new props, so it can be verified again, and each success
    notifies the parent again. *)
Theorem verified_stays_pending s a c w :
  selectedAchievement s = Some a ->
  walletAddress (props s) = Some (String c w) ->
  selectedAchievement (verifySelectedAchievement (Resolved true) s) = Some a /\
  pendingAchievements (props (verifySelectedAchievement (Resolved true) s))
    = pendingAchievements (props s) /\
  callbacks (calls (verifySelectedAchievement (Resolved true)
                      (verifySelectedAchievement (Resolved true) s)))
    = callbacks (calls s) ++
      (if onVerificationComplete (props s) then [(id a, true); (id a, true)] else []).
Proof.
  intros Ha Hw.
  set (s1 := verifySelectedAchievement (Resolved true) s).
  assert (E1 : s1 = verifySelectedAchievement_settle
                      {| closed_selectedAchievement := a;
                         closed_walletAddress := String c w;
                         closed_onVerificationComplete := onVerificationComplete (props s) |}
                      (Resolved true)
                      (set_hook (verifyAchievement_begin (resetVerificationState (hook s)))
                         (call [CallResetVerificationState;
                                CallVerifyAchievement a (String c w)]
                            (setLastVerificationResult None s)))).
  { unfold s1, verifySelectedAchievement.
    rewrite (PanelProofs.verifySelectedAchievement_begin_ok s a c w Ha Hw). reflexivity. }
  assert (Hsel : selectedAchievement s1 = Some a) by (rewrite E1; exact Ha).
  assert (Hp : props s1 = props s) by (rewrite E1; reflexivity).
  split; [exact Hsel|]. split; [rewrite Hp; reflexivity|].
  unfold verifySelectedAchievement.
  rewrite (PanelProofs.verifySelectedAchievement_begin_ok s1 a c w Hsel)
    by (rewrite Hp; exact Hw).
  rewrite Hp. simpl. rewrite !PanelProofs.callbacks_app. rewrite E1. simpl.
  rewrite !PanelProofs.callbacks_app.
  destruct (onVerificationComplete (props s)); simpl;
    rewrite ?app_nil_r, <- ?app_assoc; reflexivity.
Qed.

Lemma verified_stays_pending_witness :
  callbacks (calls (verifySelectedAchievement (Resolved true)
                      (verifySelectedAchievement (Resolved true) ready)))
  = [("a1", true); ("a1", true)].
Proof.
  exact (proj2 (proj2 (verified_stays_pending ready a1 "0" "xABC" eq_refl eq_refl))).
Defined.

(** Selecting another achievement while a verification is in flight does
    not cancel it: when it settles, its result is stored and is rendered
    with the newly selected achievement. *)
Theorem result_outlives_selection s c i b o :
  verifications s = [c] ->
  pendingAchievements (props s) !! i = Some b ->
  selectedAchievement (run [ClickPendingCard i; VerifySettles 0 o] s) = Some b /\
  lastVerificationResult (run [ClickPendingCard i; VerifySettles 0 o] s)
    = Some (verification_result (closed_selectedAchievement c) o).
Proof.
  intros Hv Hi. simpl. rewrite Hi. simpl. rewrite Hv. simpl.
  destruct o as [[|]|e]; split; reflexivity.
Qed.

Lemma result_outlives_selection_witness :
  selectedAchievement (run [ClickPendingCard 1; VerifySettles 0 (Resolved false)]
                           (step ClickVerify ready)) = Some a2 /\
  lastVerificationResult (run [ClickPendingCard 1; VerifySettles 0 (Resolved false)]
                              (step ClickVerify ready))
    = Some (verification_result a1 (Resolved false)).
Proof.
  exact (result_outlives_selection (step ClickVerify ready) _ 1 a2 (Resolved false)
           eq_refl eq_refl).
Defined.

(** ** Notifications and calls *)

Lemma counted_step e s :
  (length (callbacks (calls s)) + length (verifications s)
   <= length (verify_calls (calls s)))%nat ->
  (length (callbacks (calls (step e s))) + length (verifications (step e s))
   <= length (verify_calls (calls (step e s))))%nat.
Proof.
  intros H. destruct e; simpl.
  - destruct (pendingAchievements (props s) !! i); exact H.
  - destruct (_ && _); [|exact H].
    unfold start_verification, verifySelectedAchievement_begin.
    destruct (selectedAchievement s); [|exact H].
    destruct (walletAddress (props s)) as [[|c w]|]; try exact H.
    simpl. rewrite PanelProofs.verify_calls_app, PanelProofs.callbacks_app, !List.length_app.
    simpl. lia.
  - destruct (_ && _); [|exact H].
    unfold start_verification, verifySelectedAchievement_begin.
    destruct (selectedAchievement s); [|exact H].
    destruct (walletAddress (props s)) as [[|c w]|]; try exact H.
    simpl. rewrite PanelProofs.verify_calls_app, PanelProofs.callbacks_app, !List.length_app.
    simpl. lia.
  - destruct (refresh_disabled s); [exact H|]. simpl.
    rewrite PanelProofs.verify_calls_app, PanelProofs.callbacks_app, !List.length_app.
    simpl. lia.
  - rewrite PanelProofs.verify_calls_app, PanelProofs.callbacks_app, !List.length_app.
    simpl. lia.
  - destruct (fetches s !! i) as [[|]|]; [| |exact H]; destruct ok; simpl;
      rewrite ?PanelProofs.verify_calls_app, ?PanelProofs.callbacks_app, ?List.length_app;
      simpl; lia.
  - destruct (verifications s !! i) as [c|] eqn:Hc; [|exact H].
    assert (Hl : (S (length (delete i (verifications s))) = length (verifications s))%nat).
    { rewrite length_delete by eauto.
      apply lookup_lt_Some in Hc. lia. }
    destruct o as [[|]|e]; simpl;
      rewrite ?PanelProofs.verify_calls_app, ?PanelProofs.callbacks_app, ?List.length_app;
      try destruct (closed_onVerificationComplete c); simpl; lia.
  - destruct (Hook.verifying (hook s)); exact H.
  - exact H.
Qed.

(** The parent is never notified more often than the capture service was
    asked: in every state the notifications made plus the verify calls
    still in flight are at most the verify calls made. *)
Theorem notifications_bounded p es :
  (length (callbacks (calls (run es (mount p))))
   + length (verifications (run es (mount p)))
   <= length (verify_calls (calls (run es (mount p)))))%nat.
Proof.
  assert (H0 : (length (callbacks (calls (mount p))) + length (verifications (mount p))
                <= length (verify_calls (calls (mount p))))%nat) by (simpl; lia).
  revert H0. generalize (mount p).
  induction es as [|e es IH]; intros s H; [exact H|].
  simpl. apply IH, counted_step, H.
Qed.

(** ** Fetches that race *)

(** When two fetches are in flight, the connection status ends as the one
    that settles last leaves it, in whichever order they were started: a
    fetch started earlier that fails late overwrites the success of a later
    one. *)
Theorem last_settlement_wins s f1 f2 ok1 ok2 :
  fetches s = [f1; f2] ->
  connectionStatus (run [FetchSettles 0 ok1; FetchSettles 0 ok2] s)
    = (if ok2 then connected else disconnected) /\
  connectionStatus (run [FetchSettles 1 ok2; FetchSettles 0 ok1] s)
    = (if ok1 then connected else disconnected).
Proof.
  intros Hf. simpl. rewrite Hf. simpl.
  destruct f1, f2, ok1, ok2; simpl; split; reflexivity.
Qed.

Lemma last_settlement_wins_witness :
  connectionStatus (run [FetchSettles 1 true; FetchSettles 0 false]
                        (run [IntervalFires; ClickRefresh] ready)) = disconnected.
Proof.
  exact (proj2 (last_settlement_wins (run [IntervalFires; ClickRefresh] ready)
                  ByInitializeScreenpipe ByRefreshButton false true eq_refl)).
Defined.

(** ** Re-running the effect *)

(** When the effect runs again on a mounted panel, the fetch is called
    once at once and the old interval is replaced by a new one that starts
    its 30 s from zero: whatever the old interval had waited, nothing fires
    during the next 30 s. *)
Theorem effect_rerun_restarts n p es ms :
  alive (lifecycle_run es (mount_instance n p)) = true ->
  0 <= ms < 30000 ->
  fetch_count (panel (lifecycle_step DependencyChanges (lifecycle_run es (mount_instance n p))))
    = S (fetch_count (panel (lifecycle_run es (mount_instance n p)))) /\
  fetch_count (panel (lifecycle_run [DependencyChanges; Elapse ms]
                                    (lifecycle_run es (mount_instance n p))))
    = S (fetch_count (panel (lifecycle_run es (mount_instance n p)))).
Proof.
  intros Ha Hms.
  pose proof (PanelProofs.interval_held_run es _ (PanelProofs.interval_held_mount n p)) as Hh.
  destruct (lifecycle_run es (mount_instance n p)) as [pn [ts nh] cl al].
  unfold interval_held in Hh. simpl in *. subst al.
  destruct Hh as (h & w & -> & ->).
  unfold run_cleanup, effect, clearInterval, elapse, firings. simpl.
  rewrite Nat.eqb_refl. simpl.
  rewrite Z.max_r, Z.div_small by lia. simpl.
  unfold fetch_count. simpl. rewrite List.filter_app, List.length_app. simpl.
  split; lia.
Qed.

Lemma effect_rerun_restarts_witness :
  fetch_count (panel (lifecycle_run [DependencyChanges; Elapse 29999]
                                    (lifecycle_run [Elapse 29000] (mount_instance 0 props0))))
  = 2%nat.
Proof.
  exact (proj2 (effect_rerun_restarts 0 props0 [Elapse 29000] 29999 eq_refl
                  ltac:(lia))).
Defined.

End PanelExtra.
